(** * The NTFS probe of libvolume_id (udev-114, extras/volume_id/lib/ntfs.c)

    A shallow embedding of [volume_id_probe_ntfs] and the properties of its
    boot-sector check, geometry computation, record fetch and attribute walk.

    Integers are [Z] with the wrap-around of their C type written out.  A
    buffer returned by [volume_id_get_buffer] is a [const uint8_t *]: the
    model reads a byte at any index through it, and records every read in a
    log, so that "this read lies inside the bytes that were fetched" is a
    property of the log.  What a read past the fetched bytes yields is
    whatever the buffer holds there; the theorems quantify over all of it. *)

From Stdlib Require Import ZArith List Lia String Ascii Bool.
Import ListNotations.
Local Open Scope Z_scope.

(** ** Machine integers *)

(** [int8_t] read from a raw byte (two's complement). *)
Definition int8_of_byte (b : Z) : Z :=
  if b mod 256 <? 128 then b mod 256 else b mod 256 - 256.

(** [unsigned int] arithmetic. *)
Definition u32 (z : Z) : Z := z mod 2 ^ 32.
(** [uint64_t] arithmetic. *)
Definition u64 (z : Z) : Z := z mod 2 ^ 64.

(** [a << n] stored into an [unsigned int].  C defines the shift of the
    [int] 1 for counts up to 30; the count 31 gives the sign bit and larger
    counts are undefined: the model keeps the low 32 bits of the shifted
    value. *)
Definition shl32 (a n : Z) : Z := u32 (Z.shiftl a n).

(** Modelled from the spec: the byte-order macros of util.h, which is not
    among the sources.  The on-disk layout is little-endian throughout, and
    the model decodes every field little-endian from the buffer, so the
    macros hand the decoded field on as it is.  In particular
    [le16_to_cpu] does not narrow its argument: [attr->len] is declared
    [uint32_t], and all of its 32 bits reach the [unsigned int attr_len]. *)
Definition le16_to_cpu (x : Z) : Z := x.
Definition le32_to_cpu (x : Z) : Z := x.
Definition le64_to_cpu (x : Z) : Z := x.

(** ** Buffers *)

(** A [const uint8_t *]: the byte found at each index. *)
Definition buffer := Z -> Z.

Definition byte_at (p : buffer) (i : Z) : Z := p i mod 256.
Definition le16_at (p : buffer) (i : Z) : Z := byte_at p i + 2 ^ 8 * byte_at p (i + 1).
Definition le32_at (p : buffer) (i : Z) : Z := le16_at p i + 2 ^ 16 * le16_at p (i + 2).
Definition le64_at (p : buffer) (i : Z) : Z := le32_at p i + 2 ^ 32 * le32_at p (i + 4).

(** The [n] bytes starting at index [i]. *)
Definition bytes_at (p : buffer) (i n : Z) : list Z :=
  map (fun k => byte_at p (i + Z.of_nat k)) (seq 0 (Z.to_nat n)).

(** [memcmp(p + i, s, |s|) == 0]. *)
Definition memcmp_eq (p : buffer) (i : Z) (s : list Z) : bool :=
  if list_eq_dec Z.eq_dec (bytes_at p i (Z.of_nat (List.length s))) s then true else false.

(** Buffers for examples: a zeroed buffer and a patch of bytes written at an
    index. *)
Definition zeros : buffer := fun _ => 0.
Definition patch (p : buffer) (i : Z) (bs : list Z) : buffer :=
  fun j => if (i <=? j) && (j <? i + Z.of_nat (List.length bs))
           then nth (Z.to_nat (j - i)) bs 0 else p j.

(** ** On-disk layout (packed structures, offsets in bytes) *)

Module ns.                       (* struct ntfs_super_block *)
Definition oem_id := 3.
Definition bytes_per_sector := 11.
Definition sectors_per_cluster := 13.
Definition mft_cluster_location := 48.
Definition cluster_per_mft_record := 64.
Definition volume_serial := 72.
End ns.

Module mftr.                     (* struct master_file_table_record *)
Definition magic := 0.
Definition attrs_offset := 20.
End mftr.

Module attr.                     (* struct file_attribute *)
Definition type := 0.
Definition len := 4.
Definition value_len := 16.
Definition value_offset := 20.
End attr.

Module info.                     (* struct volume_info *)
Definition major_ver := 8.
Definition minor_ver := 9.
End info.

Definition MFT_RECORD_VOLUME := 3.
Definition MFT_RECORD_ATTR_VOLUME_NAME := 96.          (* 0x60 *)
Definition MFT_RECORD_ATTR_VOLUME_INFO := 112.         (* 0x70 *)
Definition MFT_RECORD_ATTR_OBJECT_ID := 64.            (* 0x40 *)
Definition MFT_RECORD_ATTR_END := 4294967295.          (* 0xffffffffu *)

Definition NTFS_sig : list Z := [78; 84; 70; 83].      (* "NTFS" *)
Definition FILE_sig : list Z := [70; 73; 76; 69].      (* "FILE" *)

(** ** The identity result, [struct volume_id] *)

Inductive usage_id := VOLUME_ID_FILESYSTEM | VOLUME_ID_RAID | VOLUME_ID_CRYPTO | VOLUME_ID_OTHER.

Record volume_id := mk_volume_id {
  id_type : option string;
  id_usage : option usage_id;
  id_label_raw : option (list Z);
  id_label : option (list Z);
  id_uuid : option Z;
  id_type_version : option string
}.

Definition empty_id : volume_id := mk_volume_id None None None None None None.

Definition set_type (s : string) (id : volume_id) : volume_id :=
  mk_volume_id (Some s) (id_usage id) (id_label_raw id) (id_label id) (id_uuid id) (id_type_version id).

(** Modelled from the spec: the setters of libvolume_id's util.c, which is
    not among the sources.  Each writes its one field of the result. *)
Definition volume_id_set_usage (id : volume_id) (u : usage_id) : volume_id :=
  mk_volume_id (id_type id) (Some u) (id_label_raw id) (id_label id) (id_uuid id) (id_type_version id).

(** Modelled from the spec: the 8 identifier bytes, read as a little-endian
    64-bit value, go into [uuid]. *)
Definition volume_id_set_uuid (id : volume_id) (p : buffer) (i : Z) : volume_id :=
  mk_volume_id (id_type id) (id_usage id) (id_label_raw id) (id_label id) (Some (le64_at p i)) (id_type_version id).

(** Modelled from the spec: [count] raw bytes are copied into [label_raw]. *)
Definition volume_id_set_label_raw (id : volume_id) (p : buffer) (i count : Z) : volume_id :=
  mk_volume_id (id_type id) (id_usage id) (Some (bytes_at p i count)) (id_label id) (id_uuid id) (id_type_version id).

(** Little-endian 16-bit code units of a byte sequence; a last odd byte
    has no partner and is dropped. *)
Fixpoint code_units_le (bs : list Z) : list Z :=
  match bs with
  | lo :: hi :: rest => (lo + 2 ^ 8 * hi) :: code_units_le rest
  | _ => []
  end.

(** Modelled from the spec: the same [count] bytes, decoded as
    little-endian 16-bit code units, go into [label_text]. *)
Definition volume_id_set_label_unicode16 (id : volume_id) (p : buffer) (i count : Z) : volume_id :=
  mk_volume_id (id_type id) (id_usage id) (id_label_raw id) (Some (code_units_le (bytes_at p i count)))
               (id_uuid id) (id_type_version id).

Definition set_type_version (s : string) (id : volume_id) : volume_id :=
  mk_volume_id (id_type id) (id_usage id) (id_label_raw id) (id_label id) (id_uuid id) (Some s).

(** [%u] of a [uint8_t]: at most three decimal digits. *)
Fixpoint decimal_aux (fuel : nat) (n : Z) (acc : string) : string :=
  match fuel with
  | O => acc
  | S fuel' =>
      let acc' := String (ascii_of_nat (Z.to_nat (48 + n mod 10))) acc in
      if n / 10 =? 0 then acc' else decimal_aux fuel' (n / 10) acc'
  end.
Definition decimal (n : Z) : string := decimal_aux 3 n EmptyString.

(** [snprintf(dst, n, "%u.%u", major, minor)]: at most [n - 1] characters
    are stored, and nothing at all for [n = 0]. *)
Definition snprintf_version (n : Z) (major minor : Z) (id : volume_id) : volume_id :=
  if n <=? 0 then id
  else set_type_version
         (substring 0 (Z.to_nat (n - 1)) (String.append (decimal major) (String "." (decimal minor))))
         id.

(** ** The log of what the probe asks for and reads *)

Inductive region := BootSector | MftRecord.

Inductive event :=
| Fetch (off len : Z)                (* volume_id_get_buffer(id, off, len) *)
| Read (r : region) (off len : Z).   (* bytes [off, off + len) read through the pointer of [r] *)

(** The file-scope pointers [ns], [mftr], [attr] and [info] of ntfs.c; a
    pointer into a buffer is the buffer and an index ([None] is NULL). *)
Record statics := mk_statics {
  s_ns : option buffer;
  s_mftr : option buffer;
  s_attr : option (buffer * Z);
  s_info : option (buffer * Z)
}.

Record state := mk_state {
  st_id : volume_id;
  st_log : list event;
  st_statics : statics
}.

Definition with_id (f : volume_id -> volume_id) (st : state) : state :=
  mk_state (f (st_id st)) (st_log st) (st_statics st).
Definition logging (es : list event) (st : state) : state :=
  mk_state (st_id st) (st_log st ++ es) (st_statics st).
Definition assign_ns (p : option buffer) (st : state) : state :=
  let g := st_statics st in
  mk_state (st_id st) (st_log st) (mk_statics p (s_mftr g) (s_attr g) (s_info g)).
Definition assign_mftr (p : option buffer) (st : state) : state :=
  let g := st_statics st in
  mk_state (st_id st) (st_log st) (mk_statics (s_ns g) p (s_attr g) (s_info g)).
Definition assign_attr (p : buffer * Z) (st : state) : state :=
  let g := st_statics st in
  mk_state (st_id st) (st_log st) (mk_statics (s_ns g) (s_mftr g) (Some p) (s_info g)).
Definition assign_info (p : buffer * Z) (st : state) : state :=
  let g := st_statics st in
  mk_state (st_id st) (st_log st) (mk_statics (s_ns g) (s_mftr g) (s_attr g) (Some p)).

(** ** Geometry (ntfs.c, lines 121-132) *)

Definition sector_size (ns : buffer) : Z := le16_to_cpu (le16_at ns ns.bytes_per_sector).
Definition cluster_size (ns : buffer) : Z := u32 (byte_at ns ns.sectors_per_cluster * sector_size ns).
Definition mft_cluster (ns : buffer) : Z := le64_to_cpu (le64_at ns ns.mft_cluster_location).
Definition mft_off (ns : buffer) : Z := u64 (mft_cluster ns * cluster_size ns).
Definition cluster_per_mft_record (ns : buffer) : Z := int8_of_byte (byte_at ns ns.cluster_per_mft_record).
Definition mft_record_size (ns : buffer) : Z :=
  if cluster_per_mft_record ns <? 0
  then shl32 1 (- cluster_per_mft_record ns)
  else u32 (cluster_per_mft_record ns * cluster_size ns).

(** The offset of the request for the volume record (line 141). *)
Definition mft_request_off (off : Z) (ns : buffer) : Z :=
  u64 (off + mft_off ns + u32 (MFT_RECORD_VOLUME * mft_record_size ns)).

(** ** The attribute walk (ntfs.c, lines 159-200) *)

(** Which [break] left the loop. *)
Inductive exit := ExitLenZero | ExitPastRecord | ExitEndMarker.

(** The four header fields read at the top of each iteration. *)
Definition attr_header_reads (attr_off : Z) : list event :=
  [ Read MftRecord (attr_off + attr.type) 4;
    Read MftRecord (attr_off + attr.len) 4;
    Read MftRecord (attr_off + attr.value_offset) 2;
    Read MftRecord (attr_off + attr.value_len) 4 ].

Section Probe.

(** The sizes of [id->label_raw] and [id->type_version] come from
    libvolume_id.h, which is not among the sources: they are parameters. *)
Variable VOLUME_ID_LABEL_SIZE : Z.
Variable VOLUME_ID_FORMAT_SIZE : Z.

(** Lines 182-187: [attr_p] is the index of the attribute in the record. *)
Definition volume_info_step (buf : buffer) (attr_p val_off : Z) (st : state) : state :=
  let info_p := attr_p + val_off in
  let st := assign_info (buf, info_p) st in
  let st := logging [ Read MftRecord (info_p + info.major_ver) 1;
                      Read MftRecord (info_p + info.minor_ver) 1 ] st in
  with_id (snprintf_version (VOLUME_ID_FORMAT_SIZE - 1)
             (byte_at buf (info_p + info.major_ver))
             (byte_at buf (info_p + info.minor_ver))) st.

(** Lines 189-199. *)
Definition volume_name_step (buf : buffer) (attr_p val_off val_len : Z) (st : state) : state :=
  let val_len := if val_len >? VOLUME_ID_LABEL_SIZE then VOLUME_ID_LABEL_SIZE else val_len in
  let val := attr_p + val_off in
  let st := logging [ Read MftRecord val val_len ] st in
  let st := with_id (fun id => volume_id_set_label_raw id buf val val_len) st in
  let st := logging [ Read MftRecord val val_len ] st in
  with_id (fun id => volume_id_set_label_unicode16 id buf val val_len) st.

(** One iteration of the [while (1)] loop: a [break], or the offset of the
    next attribute. *)
Definition attr_walk_body (buf : buffer) (mft_record_size attr_off : Z) (st : state)
  : (exit + Z) * state :=
  let attr_p := attr_off in
  let st := assign_attr (buf, attr_p) st in
  let attr_type := le32_to_cpu (le32_at buf (attr_p + attr.type)) in
  let attr_len := le16_to_cpu (le32_at buf (attr_p + attr.len)) in
  let val_off := le16_to_cpu (le16_at buf (attr_p + attr.value_offset)) in
  let val_len := le32_to_cpu (le32_at buf (attr_p + attr.value_len)) in
  let st := logging (attr_header_reads attr_p) st in
  let attr_off := u32 (attr_off + attr_len) in
  if attr_len =? 0 then (inl ExitLenZero, st)
  else if attr_off >=? mft_record_size then (inl ExitPastRecord, st)
  else if attr_type =? MFT_RECORD_ATTR_END then (inl ExitEndMarker, st)
  else
    let st := if attr_type =? MFT_RECORD_ATTR_VOLUME_INFO
              then volume_info_step buf attr_p val_off st else st in
    let st := if attr_type =? MFT_RECORD_ATTR_VOLUME_NAME
              then volume_name_step buf attr_p val_off val_len st else st in
    (inr attr_off, st).

(** The loop, with a bound on the number of iterations; [None] when the
    bound is reached. *)
Fixpoint attr_walk (fuel : nat) (buf : buffer) (mft_record_size attr_off : Z) (st : state)
  : option (exit * state) :=
  match fuel with
  | O => None
  | S fuel' =>
      match attr_walk_body buf mft_record_size attr_off st with
      | (inl e, st') => Some (e, st')
      | (inr attr_off', st') => attr_walk fuel' buf mft_record_size attr_off' st'
      end
  end.

(** ** The probe (ntfs.c, lines 93-207) *)

(** The label [found]. *)
Definition found (st : state) : Z * state :=
  (0, with_id (set_type "ntfs") (with_id (fun id => volume_id_set_usage id VOLUME_ID_FILESYSTEM) st)).

(** The geometry fields read from the boot sector (lines 121-129). *)
Definition geometry_reads : list event :=
  [ Read BootSector ns.bytes_per_sector 2;
    Read BootSector ns.sectors_per_cluster 1;
    Read BootSector ns.mft_cluster_location 8;
    Read BootSector ns.cluster_per_mft_record 1 ].

(** [volume_id_get_buffer] is the buffer source of the volume: the pointer
    to [len] bytes at [off], or NULL.  [fuel] bounds the iterations of the
    attribute walk. *)
Definition volume_id_probe_ntfs (fuel : nat) (volume_id_get_buffer : Z -> Z -> option buffer)
    (st : state) (off size : Z) : option (Z * state) :=
  let st := logging [ Fetch off 512 ] st in
  let st := assign_ns (volume_id_get_buffer off 512) st in
  match s_ns (st_statics st) with
  | None => Some (-1, st)
  | Some ns =>
      let st := logging [ Read BootSector ns.oem_id 4 ] st in
      if negb (memcmp_eq ns ns.oem_id NTFS_sig) then Some (-1, st)
      else
        let st := logging [ Read BootSector ns.volume_serial 8 ] st in
        let st := with_id (fun id => volume_id_set_uuid id ns ns.volume_serial) st in
        let st := logging geometry_reads st in
        let mft_record_size := mft_record_size ns in
        let st := logging [ Fetch (mft_request_off off ns) mft_record_size ] st in
        match volume_id_get_buffer (mft_request_off off ns) mft_record_size with
        | None => Some (found st)
        | Some buf =>
            let st := assign_mftr (Some buf) st in
            let st := logging [ Read MftRecord mftr.magic 4 ] st in
            if negb (memcmp_eq buf mftr.magic FILE_sig) then Some (found st)
            else
              let st := logging [ Read MftRecord mftr.attrs_offset 2 ] st in
              let attr_off := le16_to_cpu (le16_at buf mftr.attrs_offset) in
              match attr_walk fuel buf mft_record_size attr_off st with
              | None => None
              | Some (_, st) => Some (found st)
              end
        end
  end.

(** ** Properties of logs *)

(** A read of the metadata record lies within its first [size] bytes. *)
Definition within_record (size : Z) (e : event) : Prop :=
  match e with
  | Read MftRecord o l => 0 <= o /\ o + l <= size
  | _ => True
  end.

(** A read of the boot sector lies within its 512 bytes. *)
Definition within_boot_sector (e : event) : Prop :=
  match e with
  | Read BootSector o l => 0 <= o /\ o + l <= 512
  | _ => True
  end.

End Probe.

(** ** Example volumes *)

Definition init_state : state :=
  mk_state empty_id [] (mk_statics None None None None).

(** A boot sector: name field, bytes per sector, sectors per cluster, MFT
    cluster, record-size byte, serial. *)
Definition boot_sector (name : list Z) (bps spc mftc cpm : Z) (serial : list Z) : buffer :=
  patch (patch (patch (patch (patch (patch zeros
    ns.oem_id name)
    ns.bytes_per_sector [bps mod 256; bps / 256])
    ns.sectors_per_cluster [spc])
    ns.mft_cluster_location [mftc])
    ns.cluster_per_mft_record [cpm])
    ns.volume_serial serial.

(** A buffer source that holds the boot sector at offset 0 and, for the
    request [(roff, rlen)], the record [rec]; everything else is
    unavailable. *)
Definition source (boot : buffer) (roff rlen : Z) (rec : option buffer) : Z -> Z -> option buffer :=
  fun off len =>
    if (off =? 0) && (len =? 512) then Some boot
    else if (off =? roff) && (len =? rlen) then rec
    else None.

(** An attribute header: type, total length, value length, value offset. *)
Definition attr_bytes (ty len vlen voff : Z) : list Z :=
  [ ty mod 256; ty / 256 mod 256; ty / 65536 mod 256; ty / 16777216 mod 256;
    len mod 256; len / 256 mod 256; len / 65536 mod 256; len / 16777216 mod 256;
    0; 0; 0; 0; 0; 0; 0; 0;
    vlen mod 256; vlen / 256 mod 256; vlen / 65536 mod 256; vlen / 16777216 mod 256;
    voff mod 256; voff / 256 mod 256 ].

(** A record with the FILE tag and the given first-attribute offset. *)
Definition file_record (attrs_off : Z) : buffer :=
  patch (patch zeros mftr.magic FILE_sig) mftr.attrs_offset [attrs_off mod 256; attrs_off / 256].

Definition serial_1 : list Z := [1; 2; 3; 4; 5; 6; 7; 8].
Definition name_ntfs : list Z := [78; 84; 70; 83; 32; 32; 32; 32].     (* "NTFS    " *)
Definition name_ntfsx : list Z := [78; 84; 70; 83; 88; 88; 88; 88].    (* "NTFSXXXX" *)
Definition name_fat : list Z := [77; 83; 68; 79; 83; 53; 46; 48].      (* "MSDOS5.0" *)

(** A volume with 512-byte sectors, one sector per cluster, the MFT at
    cluster 4 and records of two clusters: the volume record is the 1024
    bytes at offset 5120. *)
Definition boot_ok : buffer := boot_sector name_ntfs 512 1 4 2 serial_1.

(** Its volume record: version 3.1, then the label "DATA", then the end
    marker. *)
Definition rec_ok : buffer :=
  patch (patch (patch (patch (patch (file_record 56)
    56 (attr_bytes MFT_RECORD_ATTR_VOLUME_INFO 40 12 24))
    88 [3; 1])
    96 (attr_bytes MFT_RECORD_ATTR_VOLUME_NAME 40 8 24))
    120 [68; 0; 65; 0; 84; 0; 65; 0])
    136 (attr_bytes MFT_RECORD_ATTR_END 8 0 0).

(** A volume record whose Volume-Name attribute, at offset 56, places its
    two value bytes at 56 + 2000, past the 1024 bytes of the record. *)
Definition rec_past : buffer :=
  patch (patch (patch (file_record 56)
    56 (attr_bytes MFT_RECORD_ATTR_VOLUME_NAME 24 2 2000))
    80 (attr_bytes MFT_RECORD_ATTR_END 8 0 0))
    2056 [83; 69].

(** A volume record whose Volume-Name attribute holds 100 value bytes. *)
Definition rec_long : buffer :=
  patch (patch (patch (file_record 56)
    56 (attr_bytes MFT_RECORD_ATTR_VOLUME_NAME 200 100 24))
    80 [65; 0; 66; 0])
    256 (attr_bytes MFT_RECORD_ATTR_END 8 0 0).

(** A record that does not start with the FILE tag. *)
Definition rec_untagged : buffer := patch zeros mftr.magic [66; 65; 65; 68].


Definition boot_ntfsx : buffer := boot_sector name_ntfsx 512 1 4 2 serial_1.
Definition boot_fat : buffer := boot_sector name_fat 512 1 4 2 serial_1.

(** The boot sector with the record-size byte -1 (0xff). *)
Definition boot_minus_one : buffer := boot_sector name_ntfs 512 1 4 255 serial_1.
(** The boot sector with the record-size byte 4 and 8 sectors per cluster. *)
Definition boot_four : buffer := boot_sector name_ntfs 512 8 4 4 serial_1.

(** A second source for the volume of [boot_ok] and [rec_ok]: its boot
    sector and its record differ from them in bytes that the probe does
    not read, and it answers every other request with a zeroed buffer.
    [state_other] holds pointers left by an earlier run. *)
Definition source_other : Z -> Z -> option buffer :=
  fun off len =>
    if (off =? 0) && (len =? 512) then Some (patch boot_ok 100 [7; 7])
    else if (off =? 5120) && (len =? 1024) then Some (patch rec_ok 500 [9])
    else Some zeros.
Definition state_other : state :=
  mk_state empty_id [] (mk_statics (Some zeros) (Some rec_past) (Some (zeros, 5)) None).

(** The state in which a run ends. *)
Definition final_state (r : option (Z * state)) : state :=
  match r with
  | Some (_, st) => st
  | None => init_state
  end.

(** The run of the probe on the volume of [boot_ok] and [rec_ok]. *)
Definition run_ok : option (Z * state) :=
  volume_id_probe_ntfs 64 32 1024 (source boot_ok 5120 1024 (Some rec_ok)) init_state 0 0.

(** What a run of the probe shows to its caller: the return value, the
    identity result, and the log. *)
Definition observe (r : option (Z * state)) : option (Z * volume_id * list event) :=
  match r with
  | Some (rc, st) => Some (rc, st_id st, st_log st)
  | None => None
  end.

(** Two pointers lead to the same bytes at the indices [o] to [o + n - 1]. *)
Definition same_bytes (b1 b2 : buffer) (o n : Z) : Prop :=
  forall i, o <= i < o + n -> byte_at b1 i = byte_at b2 i.

(** Two pointers lead to the same bytes wherever the log [l] has a read
    through the pointer of region [r]. *)
Definition agree_on (l : list event) (r : region) (b1 b2 : buffer) : Prop :=
  forall o n, In (Read r o n) l -> same_bytes b1 b2 o n.

Definition region_eqb (r1 r2 : region) : bool :=
  match r1, r2 with
  | BootSector, BootSector | MftRecord, MftRecord => true
  | _, _ => false
  end.

(** The same, as a check that computes. *)
Definition agree_onb (l : list event) (r : region) (b1 b2 : buffer) : bool :=
  forallb (fun e =>
             match e with
             | Read r' o n =>
                 if region_eqb r r'
                 then forallb (fun k => byte_at b1 (o + Z.of_nat k) =? byte_at b2 (o + Z.of_nat k))
                              (seq 0 (Z.to_nat n))
                 else true
             | Fetch _ _ => true
             end) l.

(** Two answers of the buffer source are the same for a run with log
    [l]: both unavailable, or pointers to the same bytes wherever the run
    read through them. *)
Definition same_answer_on (l : list event) (r : region) (r1 r2 : option buffer) : Prop :=
  match r1, r2 with
  | None, None => True
  | Some b1, Some b2 => agree_on l r b1 b2
  | _, _ => False
  end.

(** The 8-byte name field of a boot sector. *)
Definition name_field (boot : buffer) : list Z := bytes_at boot ns.oem_id 8.

(** What a walk shows: the [break] taken, the identity result, the log. *)
Definition observe_walk (r : option (exit * state)) : option (exit * volume_id * list event) :=
  match r with
  | Some (e, st) => Some (e, st_id st, st_log st)
  | None => None
  end.

(** The return value of a run. *)
Definition return_value (r : option (Z * state)) : option Z :=
  match r with
  | Some (rc, _) => Some rc
  | None => None
  end.

(** The value of a little-endian byte sequence. *)
Fixpoint le_value (bs : list Z) : Z :=
  match bs with
  | [] => 0
  | b :: rest => b + 2 ^ 8 * le_value rest
  end.

(** Two states show the same identity result and the same log; the
    file-scope pointers are left out. *)
Definition st_equiv (st1 st2 : state) : Prop :=
  st_id st1 = st_id st2 /\ st_log st1 = st_log st2.

(** The events of a run up to the request for the volume record. *)
Definition matched_prefix (off : Z) (ns : buffer) : list event :=
  [ Fetch off 512; Read BootSector ns.oem_id 4; Read BootSector ns.volume_serial 8 ]
    ++ geometry_reads ++ [ Fetch (mft_request_off off ns) (mft_record_size ns) ].

(** The attribute walk of the run on [boot_ok] and [rec_ok], the [break]
    it takes and the state it ends in. *)
Definition walk_ok : option (exit * state) :=
  attr_walk 64 32 1024 rec_ok (mft_record_size boot_ok)
    (le16_to_cpu (le16_at rec_ok mftr.attrs_offset)) init_state.

Definition walk_exit (r : option (exit * state)) : exit :=
  match r with
  | Some (e, _) => e
  | None => ExitLenZero
  end.

Definition walk_state (r : option (exit * state)) : state :=
  match r with
  | Some (_, st) => st
  | None => init_state
  end.

(** A volume record whose two attributes send the walk round in a circle:
    the one at offset 56 has total length 24, the one at offset 80 has
    total length 0xFFFFFFE8, and 80 + 0xFFFFFFE8 is 56 in 32 bits. *)
Definition rec_cycle : buffer :=
  patch (patch (file_record 56)
    56 (attr_bytes MFT_RECORD_ATTR_OBJECT_ID 24 0 0))
    80 (attr_bytes MFT_RECORD_ATTR_OBJECT_ID 4294967272 0 0).

(** The record [rec_past] with other bytes after its 1024 bytes, where
    its Volume-Name attribute places its value. *)
Definition rec_past_other : buffer := patch rec_past 2056 [90; 90].

(** A volume record that starts with an object-id attribute. *)
Definition rec_object_id : buffer :=
  patch (patch (file_record 56)
    56 (attr_bytes MFT_RECORD_ATTR_OBJECT_ID 24 16 24))
    80 (attr_bytes MFT_RECORD_ATTR_END 8 0 0).

(** ** The attributes a walk visits *)

(** The outcome of the three checks on the attribute at offset [a]: the
    [break] taken, or the offset of the next attribute. *)
Definition attr_next (buf : buffer) (size a : Z) : exit + Z :=
  let attr_type := le32_to_cpu (le32_at buf (a + attr.type)) in
  let attr_len := le16_to_cpu (le32_at buf (a + attr.len)) in
  if attr_len =? 0 then inl ExitLenZero
  else if u32 (a + attr_len) >=? size then inl ExitPastRecord
  else if attr_type =? MFT_RECORD_ATTR_END then inl ExitEndMarker
  else inr (u32 (a + attr_len)).

(** The offsets of the attributes that the first [fuel] iterations of a
    walk from [a] read. *)
Fixpoint visited (fuel : nat) (buf : buffer) (size a : Z) : list Z :=
  match fuel with
  | O => []
  | S fuel' =>
      a :: match attr_next buf size a with
           | inl _ => []
           | inr a' => visited fuel' buf size a'
           end
  end.

(** The attribute at offset [a] lies within the record: its header does,
    and so do the version bytes of a Volume-Info value and the label bytes
    (clamped to [label_size]) of a Volume-Name value. *)
Definition attr_well_formed (label_size : Z) (buf : buffer) (size a : Z) : Prop :=
  let attr_type := le32_to_cpu (le32_at buf (a + attr.type)) in
  let val_off := le16_to_cpu (le16_at buf (a + attr.value_offset)) in
  let val_len := le32_to_cpu (le32_at buf (a + attr.value_len)) in
  0 <= a /\ a + 22 <= size
  /\ (attr_type = MFT_RECORD_ATTR_VOLUME_INFO -> a + val_off + 10 <= size)
  /\ (attr_type = MFT_RECORD_ATTR_VOLUME_NAME ->
       0 <= label_size /\ a + val_off + Z.min val_len label_size <= size).

Definition attr_well_formedb (label_size : Z) (buf : buffer) (size a : Z) : bool :=
  let attr_type := le32_to_cpu (le32_at buf (a + attr.type)) in
  let val_off := le16_to_cpu (le16_at buf (a + attr.value_offset)) in
  let val_len := le32_to_cpu (le32_at buf (a + attr.value_len)) in
  (0 <=? a) && (a + 22 <=? size)
  && (negb (attr_type =? MFT_RECORD_ATTR_VOLUME_INFO) || (a + val_off + 10 <=? size))
  && (negb (attr_type =? MFT_RECORD_ATTR_VOLUME_NAME)
      || ((0 <=? label_size) && (a + val_off + Z.min val_len label_size <=? size))).

(** The total length of the attribute at offset [a] does not take the
    offset past the 32 bits of [attr_off]. *)
Definition no_wrap (buf : buffer) (a : Z) : Prop :=
  a + le16_to_cpu (le32_at buf (a + attr.len)) < 4294967296.

(** ** Notions for the properties of whole runs *)

Definition is_fetch (e : event) : bool :=
  match e with Fetch _ _ => true | _ => false end.

(** The requests made to the buffer source, in order. *)
Definition requests (l : list event) : list event := filter is_fetch l.

(** A read through the pointer of the metadata record. *)
Definition is_record_read (e : event) : Prop :=
  match e with Read MftRecord _ _ => True | _ => False end.

(** A read of the metadata record that starts at index 0 or later and ends
    at [bound] or before. *)
Definition record_read_below (bound : Z) (e : event) : Prop :=
  match e with
  | Read MftRecord o n => 0 <= o /\ 0 <= n /\ o + n <= bound
  | _ => False
  end.

(** How far the attribute walk can read in a record of [size] bytes with
    labels of at most [label_size] bytes. *)
Definition overread_bound (label_size size : Z) : Z :=
  Z.max size 65536 + 65534 + Z.max 10 label_size.

(** The raw label, when there is one, fits [label_size] bytes. *)
Definition label_fits (label_size : Z) (id : volume_id) : Prop :=
  match id_label_raw id with
  | Some raw => Z.of_nat (List.length raw) <= label_size
  | None => True
  end.

(** The text that ["%u.%u"] gives for two version bytes. *)
Definition version_string (major minor : Z) : string :=
  String.append (decimal major) (String "." (decimal minor)).

(** Reading a version text back: the decimal number before the first dot
    and the decimal number after it. *)
Definition digit_value (c : ascii) : Z := Z.of_nat (nat_of_ascii c) - 48.

Fixpoint parse_decimal_from (acc : Z) (s : string) : Z :=
  match s with
  | EmptyString => acc
  | String c rest => parse_decimal_from (10 * acc + digit_value c) rest
  end.

Fixpoint parse_version_from (acc : Z) (s : string) : Z * Z :=
  match s with
  | EmptyString => (acc, 0)
  | String c rest =>
      if Ascii.eqb c "." then (acc, parse_decimal_from 0 rest)
      else parse_version_from (10 * acc + digit_value c) rest
  end.

Definition parse_version (s : string) : Z * Z := parse_version_from 0 s.

(** A check on every value of a byte. *)
Definition all_bytes (P : Z -> bool) : bool :=
  forallb (fun k => P (Z.of_nat k)) (seq 0 256).

(** * Ranges of the decoded fields *)

Lemma byte_at_range (p : buffer) (i : Z) : 0 <= byte_at p i < 256.
Proof. unfold byte_at. apply Z.mod_pos_bound. lia. Qed.

Lemma le16_at_range (p : buffer) (i : Z) : 0 <= le16_at p i < 65536.
Proof.
  unfold le16_at. change (2 ^ 8) with 256.
  pose proof (byte_at_range p i). pose proof (byte_at_range p (i + 1)). lia.
Qed.

Lemma le32_at_range (p : buffer) (i : Z) : 0 <= le32_at p i < 4294967296.
Proof.
  unfold le32_at. change (2 ^ 16) with 65536.
  pose proof (le16_at_range p i). pose proof (le16_at_range p (i + 2)). lia.
Qed.

(** A 16-bit field read through [le16_to_cpu]. *)
Lemma le16_field_range (p : buffer) (i : Z) : 0 <= le16_to_cpu (le16_at p i) < 65536.
Proof. unfold le16_to_cpu. apply le16_at_range. Qed.

(** A 32-bit field, read through [le32_to_cpu] or through [le16_to_cpu]. *)
Lemma le32_field_range (p : buffer) (i : Z) : 0 <= le32_to_cpu (le32_at p i) < 4294967296.
Proof. unfold le32_to_cpu. apply le32_at_range. Qed.

Lemma len_field_range (p : buffer) (i : Z) : 0 <= le16_to_cpu (le32_at p i) < 4294967296.
Proof. unfold le16_to_cpu. apply le32_at_range. Qed.

Lemma u32_small (x : Z) : 0 <= x < 4294967296 -> u32 x = x.
Proof. intros H. unfold u32. change (2 ^ 32) with 4294967296. apply Z.mod_small. lia. Qed.

Lemma sector_size_range (boot : buffer) : 0 <= sector_size boot < 65536.
Proof. apply le16_field_range. Qed.

(** [sectors_per_cluster * sector_size] never wraps. *)
Lemma cluster_size_exact (boot : buffer) :
  cluster_size boot = byte_at boot ns.sectors_per_cluster * sector_size boot.
Proof.
  unfold cluster_size. apply u32_small.
  pose proof (byte_at_range boot ns.sectors_per_cluster).
  pose proof (sector_size_range boot). nia.
Qed.

Lemma cluster_size_range (boot : buffer) : 0 <= cluster_size boot <= 255 * 65535.
Proof.
  rewrite cluster_size_exact.
  pose proof (byte_at_range boot ns.sectors_per_cluster).
  pose proof (sector_size_range boot). nia.
Qed.

Lemma int8_of_byte_range (b : Z) : -128 <= int8_of_byte b < 128.
Proof.
  unfold int8_of_byte. pose proof (Z.mod_pos_bound b 256 ltac:(lia)).
  destruct (b mod 256 <? 128) eqn:E; [apply Z.ltb_lt in E | apply Z.ltb_ge in E]; lia.
Qed.


Lemma shl32_one (n : Z) : 0 <= n < 32 -> shl32 1 n = 2 ^ n.
Proof.
  intros H. unfold shl32. rewrite Z.shiftl_1_l. apply u32_small.
  split; [apply Z.pow_nonneg; lia |].
  change 4294967296 with (2 ^ 32). apply Z.pow_lt_mono_r; lia.
Qed.



(** * Geometry: the record size *)

(** C3.  The record size follows the dual encoding of the signed size
    byte [v] at offset 64 of the boot sector.  For negative [v] it is
    [1 << -v] as an [unsigned int], which is the power of two [2 ^ (-v)]
    for every shift count below 32; for non-negative [v] it is
    [v * cluster_size], a product that never wraps.  The byte -1 (0xff)
    gives 2 and the byte 4 gives [4 * cluster_size]. *)
Theorem record_size_dual_encoding (boot : buffer) :
  let v := int8_of_byte (byte_at boot ns.cluster_per_mft_record) in
  (v < 0 -> mft_record_size boot = shl32 1 (- v))
  /\ (-32 < v < 0 -> mft_record_size boot = 2 ^ (- v))
  /\ (0 <= v -> mft_record_size boot = v * cluster_size boot)
  /\ (byte_at boot ns.cluster_per_mft_record = 255 -> mft_record_size boot = 2)
  /\ (byte_at boot ns.cluster_per_mft_record = 4 -> mft_record_size boot = 4 * cluster_size boot).
Proof.
  intros v.
  assert (Hneg : v < 0 -> mft_record_size boot = shl32 1 (- v)).
  { intros Hv. unfold mft_record_size, cluster_per_mft_record. fold v.
    apply Z.ltb_lt in Hv. now rewrite Hv. }
  assert (Hpos : 0 <= v -> mft_record_size boot = v * cluster_size boot).
  { intros Hv. unfold mft_record_size, cluster_per_mft_record. fold v.
    pose proof (int8_of_byte_range (byte_at boot ns.cluster_per_mft_record)) as Hr.
    fold v in Hr. pose proof (cluster_size_range boot) as Hc.
    apply Z.ltb_ge in Hv. rewrite Hv. apply Z.ltb_ge in Hv.
    apply u32_small. nia. }
  repeat split.
  - auto.
  - intros Hv'. rewrite Hneg by lia. apply shl32_one. lia.
  - exact Hpos.
  - intros Hb. unfold v in *. rewrite Hb in *.
    change (int8_of_byte 255) with (-1) in *. rewrite Hneg by lia. reflexivity.
  - intros Hb. unfold v in *. rewrite Hb in *.
    change (int8_of_byte 4) with 4 in *. apply Hpos. lia.
Qed.

(** * The attribute walk *)

Section Walk.

Variable VOLUME_ID_LABEL_SIZE : Z.
Variable VOLUME_ID_FORMAT_SIZE : Z.

Abbreviation body := (attr_walk_body VOLUME_ID_LABEL_SIZE VOLUME_ID_FORMAT_SIZE).
Abbreviation walk := (attr_walk VOLUME_ID_LABEL_SIZE VOLUME_ID_FORMAT_SIZE).

(** The header fields of the attribute at offset [a], as the loop decodes
    them. *)
Lemma body_unfold (buf : buffer) (size a : Z) (st : state) :
  let ty := le32_to_cpu (le32_at buf (a + attr.type)) in
  let len := le16_to_cpu (le32_at buf (a + attr.len)) in
  let val_off := le16_to_cpu (le16_at buf (a + attr.value_offset)) in
  let val_len := le32_to_cpu (le32_at buf (a + attr.value_len)) in
  let st0 := logging (attr_header_reads a) (assign_attr (buf, a) st) in
  body buf size a st =
    if len =? 0 then (inl ExitLenZero, st0)
    else if u32 (a + len) >=? size then (inl ExitPastRecord, st0)
    else if ty =? MFT_RECORD_ATTR_END then (inl ExitEndMarker, st0)
    else (inr (u32 (a + len)),
          let st1 := if ty =? MFT_RECORD_ATTR_VOLUME_INFO
                     then volume_info_step VOLUME_ID_FORMAT_SIZE buf a val_off st0 else st0 in
          if ty =? MFT_RECORD_ATTR_VOLUME_NAME
          then volume_name_step VOLUME_ID_LABEL_SIZE buf a val_off val_len st1 else st1).
Proof. reflexivity. Qed.


Lemma bytes_at_length (p : buffer) (i n : Z) :
  Z.of_nat (List.length (bytes_at p i n)) = Z.max 0 n.
Proof. unfold bytes_at. rewrite length_map, length_seq. lia. Qed.

(** C8.  For every Volume-Name attribute that the walk processes, the
    value length is clamped to the maximum label size before anything is
    copied: [label_raw] receives the clamped number of bytes found at
    [a + value_offset], [label_text] the 16-bit little-endian code units
    of the same bytes, and a value length above the maximum gives a label
    of exactly the maximum size. *)
Theorem volume_name_label_clamped (buf : buffer) (size a : Z) (st : state) (a' : Z) (st' : state) :
  let val_off := le16_to_cpu (le16_at buf (a + attr.value_offset)) in
  let val_len := le32_to_cpu (le32_at buf (a + attr.value_len)) in
  let n := Z.min val_len VOLUME_ID_LABEL_SIZE in
  0 <= VOLUME_ID_LABEL_SIZE ->
  le32_to_cpu (le32_at buf (a + attr.type)) = MFT_RECORD_ATTR_VOLUME_NAME ->
  body buf size a st = (inr a', st') ->
  id_label_raw (st_id st') = Some (bytes_at buf (a + val_off) n)
  /\ id_label (st_id st') = Some (code_units_le (bytes_at buf (a + val_off) n))
  /\ Z.of_nat (List.length (bytes_at buf (a + val_off) n)) <= VOLUME_ID_LABEL_SIZE
  /\ (VOLUME_ID_LABEL_SIZE < val_len ->
      Z.of_nat (List.length (bytes_at buf (a + val_off) n)) = VOLUME_ID_LABEL_SIZE)
  /\ st_log st' = st_log st ++ attr_header_reads a
                    ++ [ Read MftRecord (a + val_off) n; Read MftRecord (a + val_off) n ].
Proof.
  intros val_off val_len n Hsz Hty Hb.
  rewrite body_unfold in Hb. cbv zeta in Hb. rewrite Hty in Hb.
  fold val_off val_len in Hb.
  destruct (_ =? 0); [discriminate |].
  destruct (_ >=? size); [discriminate |].
  change (MFT_RECORD_ATTR_VOLUME_NAME =? MFT_RECORD_ATTR_END) with false in Hb.
  change (MFT_RECORD_ATTR_VOLUME_NAME =? MFT_RECORD_ATTR_VOLUME_INFO) with false in Hb.
  change (MFT_RECORD_ATTR_VOLUME_NAME =? MFT_RECORD_ATTR_VOLUME_NAME) with true in Hb.
  inversion Hb; subst a' st'. clear Hb.
  assert (Hn : (if val_len >? VOLUME_ID_LABEL_SIZE then VOLUME_ID_LABEL_SIZE else val_len) = n).
  { unfold n. rewrite Z.gtb_ltb.
    destruct (VOLUME_ID_LABEL_SIZE <? val_len) eqn:E;
      [apply Z.ltb_lt in E | apply Z.ltb_ge in E]; lia. }
  unfold volume_name_step. rewrite Hn. cbn [st_id st_log with_id logging
    volume_id_set_label_raw volume_id_set_label_unicode16 id_label_raw id_label assign_attr].
  rewrite bytes_at_length.
  repeat split.
  - unfold n. lia.
  - unfold n. lia.
  - rewrite <- !app_assoc. reflexivity.
Qed.

End Walk.

(** * Reading the same bytes through two pointers *)

Lemma same_bytes_le16 (b1 b2 : buffer) (o : Z) :
  same_bytes b1 b2 o 2 -> le16_at b1 o = le16_at b2 o.
Proof. intros H. unfold le16_at. rewrite !H by lia. reflexivity. Qed.

Lemma same_bytes_le32 (b1 b2 : buffer) (o : Z) :
  same_bytes b1 b2 o 4 -> le32_at b1 o = le32_at b2 o.
Proof. intros H. unfold le32_at, le16_at. rewrite !H by lia. reflexivity. Qed.

Lemma same_bytes_le64 (b1 b2 : buffer) (o : Z) :
  same_bytes b1 b2 o 8 -> le64_at b1 o = le64_at b2 o.
Proof. intros H. unfold le64_at, le32_at, le16_at. rewrite !H by lia. reflexivity. Qed.

Lemma same_bytes_at (b1 b2 : buffer) (o n : Z) :
  same_bytes b1 b2 o n -> bytes_at b1 o n = bytes_at b2 o n.
Proof.
  intros H. unfold bytes_at. apply map_ext_in. intros k Hk.
  apply in_seq in Hk. apply H. lia.
Qed.

Lemma same_bytes_memcmp (b1 b2 : buffer) (o : Z) (s : list Z) :
  same_bytes b1 b2 o (Z.of_nat (List.length s)) -> memcmp_eq b1 o s = memcmp_eq b2 o s.
Proof. intros H. unfold memcmp_eq. now rewrite (same_bytes_at b1 b2) by exact H. Qed.

Lemma agree_on_app (l1 l2 : list event) (r : region) (b1 b2 : buffer) :
  agree_on (l1 ++ l2) r b1 b2 -> agree_on l1 r b1 b2 /\ agree_on l2 r b1 b2.
Proof.
  intros H. split; intros o n Hin; apply H; rewrite in_app_iff; auto.
Qed.

(** The geometry depends on the four fields read for it only. *)
Lemma geometry_agree (l : list event) (b1 b2 : buffer) (off : Z) :
  agree_on l BootSector b1 b2 ->
  incl geometry_reads l ->
  mft_record_size b1 = mft_record_size b2
  /\ mft_request_off off b1 = mft_request_off off b2.
Proof.
  intros Hag Hin.
  assert (H1 : le16_at b1 ns.bytes_per_sector = le16_at b2 ns.bytes_per_sector).
  { apply same_bytes_le16, Hag, Hin. simpl. auto. }
  assert (H2 : byte_at b1 ns.sectors_per_cluster = byte_at b2 ns.sectors_per_cluster).
  { apply (Hag ns.sectors_per_cluster 1); [apply Hin; simpl; auto | lia]. }
  assert (H3 : le64_at b1 ns.mft_cluster_location = le64_at b2 ns.mft_cluster_location).
  { apply same_bytes_le64, Hag, Hin. simpl. auto. }
  assert (H4 : byte_at b1 ns.cluster_per_mft_record = byte_at b2 ns.cluster_per_mft_record).
  { apply (Hag ns.cluster_per_mft_record 1); [apply Hin; simpl; auto 6 | lia]. }
  unfold mft_request_off, mft_off, mft_cluster, mft_record_size,
    cluster_per_mft_record, cluster_size, sector_size.
  rewrite H1, H2, H3, H4. split; reflexivity.
Qed.

(** The boolean check decides agreement on the reads of a log. *)
Lemma agree_onb_sound (l : list event) (r : region) (b1 b2 : buffer) :
  agree_onb l r b1 b2 = true -> agree_on l r b1 b2.
Proof.
  unfold agree_onb, agree_on. intros H o n Hin i Hi.
  rewrite forallb_forall in H. specialize (H _ Hin). cbn in H.
  destruct (region_eqb r r) eqn:Er; [| destruct r; discriminate].
  rewrite forallb_forall in H.
  specialize (H (Z.to_nat (i - o))).
  replace (o + Z.of_nat (Z.to_nat (i - o))) with i in H by lia.
  apply Z.eqb_eq, H, in_seq. lia.
Qed.

Lemma memcmp_eq_true (p : buffer) (i : Z) (s : list Z) :
  memcmp_eq p i s = true <-> bytes_at p i (Z.of_nat (List.length s)) = s.
Proof.
  unfold memcmp_eq. destruct (list_eq_dec _ _ _); split; intros; congruence.
Qed.

Lemma le64_at_le_value (p : buffer) (i : Z) : le64_at p i = le_value (bytes_at p i 8).
Proof.
  change (bytes_at p i 8) with
    [ byte_at p (i + 0); byte_at p (i + 1); byte_at p (i + 2); byte_at p (i + 3);
      byte_at p (i + 4); byte_at p (i + 5); byte_at p (i + 6); byte_at p (i + 7) ].
  unfold le64_at, le32_at, le16_at. cbn [le_value].
  rewrite Z.add_0_r.
  replace (i + 2 + 1) with (i + 3) by lia.
  replace (i + 4 + 1) with (i + 5) by lia.
  replace (i + 4 + 2) with (i + 6) by lia.
  replace (i + 6 + 1) with (i + 7) by lia.
  change (2 ^ 8) with 256. change (2 ^ 16) with 65536. change (2 ^ 32) with 4294967296.
  lia.
Qed.

(** * The probe *)

Section ProbeProps.

Variable VOLUME_ID_LABEL_SIZE : Z.
Variable VOLUME_ID_FORMAT_SIZE : Z.

Abbreviation body := (attr_walk_body VOLUME_ID_LABEL_SIZE VOLUME_ID_FORMAT_SIZE).
Abbreviation walk := (attr_walk VOLUME_ID_LABEL_SIZE VOLUME_ID_FORMAT_SIZE).
Abbreviation probe := (volume_id_probe_ntfs VOLUME_ID_LABEL_SIZE VOLUME_ID_FORMAT_SIZE).

Ltac split_ifs :=
  repeat match goal with
         | |- context [if ?c then _ else _] => destruct c
         end.

(** The walk writes the label and the version only, and only adds to the
    log. *)
Lemma body_keeps (buf : buffer) (size a : Z) (st : state) r (st' : state) :
  body buf size a st = (r, st') ->
  id_uuid (st_id st') = id_uuid (st_id st)
  /\ id_type (st_id st') = id_type (st_id st)
  /\ id_usage (st_id st') = id_usage (st_id st)
  /\ exists l, st_log st' = st_log st ++ l.
Proof.
  rewrite body_unfold. cbv zeta.
  unfold volume_info_step, volume_name_step, snprintf_version.
  split_ifs; intros H; inversion H; subst; cbn;
    rewrite <- ?app_assoc; repeat split; eexists; reflexivity.
Qed.

Lemma walk_keeps (buf : buffer) (size : Z) :
  forall (fuel : nat) (a : Z) (st : state) e (st' : state),
    walk fuel buf size a st = Some (e, st') ->
    id_uuid (st_id st') = id_uuid (st_id st)
    /\ id_type (st_id st') = id_type (st_id st)
    /\ id_usage (st_id st') = id_usage (st_id st)
    /\ exists l, st_log st' = st_log st ++ l.
Proof.
  induction fuel as [| fuel IH]; intros a st e st' H; [discriminate |].
  simpl in H. destruct (body buf size a st) as [[e1 | a1] st1] eqn:Eb.
  - inversion H; subst. exact (body_keeps _ _ _ _ _ _ Eb).
  - destruct (body_keeps _ _ _ _ _ _ Eb) as (U & T & G & l & L).
    destruct (IH _ _ _ _ H) as (U' & T' & G' & l' & L').
    repeat split; try congruence.
    exists (l ++ l'). rewrite L', L. now rewrite app_assoc.
Qed.

(** C4.  After a signature match, when the request for the metadata
    record is answered unavailable, or the record fetched does not start
    with the FILE tag, the probe returns a match: the result carries the
    type "ntfs", the usage and the uuid of the signature step, and the
    label and the version are what they were before the call (absent for a
    fresh result). *)
Theorem partial_match_without_record (fuel : nat) (src : Z -> Z -> option buffer) (st : state)
    (off size : Z) (ns : buffer) :
  src off 512 = Some ns ->
  bytes_at ns ns.oem_id 4 = NTFS_sig ->
  (src (mft_request_off off ns) (mft_record_size ns) = None
   \/ exists buf, src (mft_request_off off ns) (mft_record_size ns) = Some buf
                  /\ bytes_at buf mftr.magic 4 <> FILE_sig) ->
  exists st', probe fuel src st off size = Some (0, st')
    /\ id_type (st_id st') = Some "ntfs"%string
    /\ id_usage (st_id st') = Some VOLUME_ID_FILESYSTEM
    /\ id_uuid (st_id st') = Some (le64_at ns ns.volume_serial)
    /\ id_label_raw (st_id st') = id_label_raw (st_id st)
    /\ id_label (st_id st') = id_label (st_id st)
    /\ id_type_version (st_id st') = id_type_version (st_id st).
Proof.
  intros Hns Hsig Hrec.
  apply (memcmp_eq_true ns ns.oem_id NTFS_sig) in Hsig.
  unfold volume_id_probe_ntfs.
  cbn [assign_ns logging st_statics s_ns st_id st_log]. rewrite Hns, Hsig.
  cbn [negb]. cbv zeta.
  destruct Hrec as [Hnone | (buf & Hbuf & Hmagic)].
  - rewrite Hnone. eexists. split; [reflexivity |]. cbn. repeat split.
  - rewrite Hbuf.
    assert (Hm : memcmp_eq buf mftr.magic FILE_sig = false).
    { destruct (memcmp_eq buf mftr.magic FILE_sig) eqn:E; [| reflexivity].
      apply memcmp_eq_true in E. contradiction. }
    rewrite Hm. cbn [negb]. eexists. split; [reflexivity |]. cbn. repeat split.
Qed.

(** C6, as the code has it.  The name field is compared with "NTFS" on
    its first four bytes.  For every boot sector in which these differ the
    probe returns -1, the identity result is untouched, and the run
    consists of the request for the 512-byte boot sector and the read of
    the four bytes compared. *)
Theorem signature_mismatch_no_match (fuel : nat) (src : Z -> Z -> option buffer) (st : state)
    (off size : Z) (ns : buffer) :
  src off 512 = Some ns ->
  bytes_at ns ns.oem_id 4 <> NTFS_sig ->
  observe (probe fuel src st off size)
  = Some (-1, st_id st, st_log st ++ [ Fetch off 512; Read BootSector ns.oem_id 4 ])
  /\ Forall within_boot_sector [ Fetch off 512; Read BootSector ns.oem_id 4 ].
Proof.
  intros Hns Hsig.
  assert (Hm : memcmp_eq ns ns.oem_id NTFS_sig = false).
  { destruct (memcmp_eq ns ns.oem_id NTFS_sig) eqn:E; [| reflexivity].
    apply memcmp_eq_true in E. contradiction. }
  split.
  - unfold volume_id_probe_ntfs.
    cbn [assign_ns logging st_statics s_ns st_id st_log]. rewrite Hns, Hm.
    cbn. now rewrite <- app_assoc.
  - repeat constructor; unfold ns.oem_id; lia.
Qed.

(** The log of an iteration starts with the reads of the header. *)
Lemma body_log (buf : buffer) (size a : Z) (st : state) r (st' : state) :
  body buf size a st = (r, st') ->
  exists l, st_log st' = st_log st ++ attr_header_reads a ++ l.
Proof.
  rewrite body_unfold. cbv zeta.
  unfold volume_info_step, volume_name_step, snprintf_version.
  split_ifs; intros H; inversion H; subst; cbn [st_log logging with_id assign_attr assign_info];
    rewrite <- ?app_assoc; eexists; try reflexivity.
  all: now rewrite app_nil_r.
Qed.

(** An iteration depends on the bytes it reads only: over a second buffer
    that agrees with the first on the reads logged, and from a state that
    shows the same, it takes the same branch and ends in a state that
    shows the same. *)
Lemma body_respects (b1 b2 : buffer) (size a : Z) (st1 st2 : state) r (s1 : state) :
  body b1 size a st1 = (r, s1) ->
  st_equiv st1 st2 ->
  agree_on (st_log s1) MftRecord b1 b2 ->
  exists s2, body b2 size a st2 = (r, s2) /\ st_equiv s1 s2.
Proof.
  intros Hb [I L] Hag.
  destruct (body_log _ _ _ _ _ _ Hb) as [l Hl].
  assert (Hh : agree_on (attr_header_reads a) MftRecord b1 b2).
  { rewrite Hl in Hag. apply agree_on_app in Hag as [_ Hag].
    now apply agree_on_app in Hag as [Hag _]. }
  assert (Hty : le32_at b1 (a + attr.type) = le32_at b2 (a + attr.type)).
  { apply same_bytes_le32, Hh. simpl. auto. }
  assert (Hlen : le32_at b1 (a + attr.len) = le32_at b2 (a + attr.len)).
  { apply same_bytes_le32, Hh. simpl. auto. }
  assert (Hvo : le16_at b1 (a + attr.value_offset) = le16_at b2 (a + attr.value_offset)).
  { apply same_bytes_le16, Hh. simpl. auto. }
  assert (Hvl : le32_at b1 (a + attr.value_len) = le32_at b2 (a + attr.value_len)).
  { apply same_bytes_le32, Hh. simpl. auto 6. }
  rewrite body_unfold in Hb. rewrite body_unfold. cbv zeta in *.
  rewrite <- Hty, <- Hlen, <- Hvo, <- Hvl.
  set (ty := le32_to_cpu (le32_at b1 (a + attr.type))) in *.
  set (len := le16_to_cpu (le32_at b1 (a + attr.len))) in *.
  set (vo := le16_to_cpu (le16_at b1 (a + attr.value_offset))) in *.
  set (vl := le32_to_cpu (le32_at b1 (a + attr.value_len))) in *.
  destruct (len =? 0).
  { inversion Hb; subst. eexists. split; [reflexivity |]. split; cbn; congruence. }
  destruct (u32 (a + len) >=? size).
  { inversion Hb; subst. eexists. split; [reflexivity |]. split; cbn; congruence. }
  destruct (ty =? MFT_RECORD_ATTR_END).
  { inversion Hb; subst. eexists. split; [reflexivity |]. split; cbn; congruence. }
  inversion Hb as [[Hr Hs]]. clear Hb. eexists. split; [reflexivity |].
  rewrite <- Hs in Hag. clear Hs Hl l Hh.
  unfold volume_info_step, volume_name_step in *.
  destruct (ty =? MFT_RECORD_ATTR_VOLUME_INFO); destruct (ty =? MFT_RECORD_ATTR_VOLUME_NAME);
    cbn [st_log st_id logging with_id assign_attr assign_info] in Hag |- *.
  - set (n := if vl >? VOLUME_ID_LABEL_SIZE then VOLUME_ID_LABEL_SIZE else vl) in *.
    apply agree_on_app in Hag as [Hag Hn]. apply agree_on_app in Hag as [Hag _].
    apply agree_on_app in Hag as [_ Hi].
    assert (E1 : byte_at b1 (a + vo + info.major_ver) = byte_at b2 (a + vo + info.major_ver)).
    { apply (Hi (a + vo + info.major_ver) 1); [simpl; auto | lia]. }
    assert (E2 : byte_at b1 (a + vo + info.minor_ver) = byte_at b2 (a + vo + info.minor_ver)).
    { apply (Hi (a + vo + info.minor_ver) 1); [simpl; auto | lia]. }
    assert (E3 : bytes_at b1 (a + vo) n = bytes_at b2 (a + vo) n).
    { apply same_bytes_at, Hn. simpl. auto. }
    unfold volume_id_set_label_raw, volume_id_set_label_unicode16.
    rewrite E1, E2, E3. split; cbn; congruence.
  - apply agree_on_app in Hag as [_ Hi].
    assert (E1 : byte_at b1 (a + vo + info.major_ver) = byte_at b2 (a + vo + info.major_ver)).
    { apply (Hi (a + vo + info.major_ver) 1); [simpl; auto | lia]. }
    assert (E2 : byte_at b1 (a + vo + info.minor_ver) = byte_at b2 (a + vo + info.minor_ver)).
    { apply (Hi (a + vo + info.minor_ver) 1); [simpl; auto | lia]. }
    rewrite E1, E2. split; cbn; congruence.
  - set (n := if vl >? VOLUME_ID_LABEL_SIZE then VOLUME_ID_LABEL_SIZE else vl) in *.
    apply agree_on_app in Hag as [_ Hn].
    assert (E3 : bytes_at b1 (a + vo) n = bytes_at b2 (a + vo) n).
    { apply same_bytes_at, Hn. simpl. auto. }
    unfold volume_id_set_label_raw, volume_id_set_label_unicode16.
    rewrite E3. split; cbn; congruence.
  - split; cbn; congruence.
Qed.

Lemma walk_respects (b1 b2 : buffer) (size : Z) :
  forall (fuel : nat) (a : Z) (st1 st2 : state) e (s1 : state),
    walk fuel b1 size a st1 = Some (e, s1) ->
    st_equiv st1 st2 ->
    agree_on (st_log s1) MftRecord b1 b2 ->
    exists s2, walk fuel b2 size a st2 = Some (e, s2) /\ st_equiv s1 s2.
Proof.
  induction fuel as [| fuel IH]; intros a st1 st2 e s1 Hw Hst Hag; [discriminate |].
  simpl in Hw |- *.
  destruct (body b1 size a st1) as [[e1 | a1] sm] eqn:Eb.
  - inversion Hw; subst.
    destruct (body_respects _ _ _ _ _ _ _ _ Eb Hst Hag) as (s2 & Eb2 & Hs2).
    rewrite Eb2. eauto.
  - destruct (walk_keeps _ _ _ _ _ _ _ Hw) as (_ & _ & _ & l & Hl).
    assert (Hm : agree_on (st_log sm) MftRecord b1 b2).
    { rewrite Hl in Hag. now apply agree_on_app in Hag. }
    destruct (body_respects _ _ _ _ _ _ _ _ Eb Hst Hm) as (s2 & Eb2 & Hs2).
    rewrite Eb2. now apply (IH a1 sm s2).
Qed.

(** X15.  The result of a run is a function of the bytes it reads.  Take
    a run that returns, and a second run at the same offset, started with
    the same identity result and log, whose buffer source answers the two
    requests of the probe (the boot sector, and the volume record at the
    offset and length computed from it) as the first one does: unavailable
    where it was unavailable, and otherwise with a buffer that holds the
    same bytes wherever the first run read.  The second run returns the
    same value and leaves the same identity result and the same log of
    requests and reads.  The file-scope pointers left by earlier runs, the
    [size] argument, the bytes never read and the answers of the sources
    to other requests play no part. *)
Theorem probe_deterministic (fuel : nat) (src1 src2 : Z -> Z -> option buffer)
    (st1 st2 : state) (off size1 size2 : Z) (rc : Z) (st1' : state) :
  probe fuel src1 st1 off size1 = Some (rc, st1') ->
  st_equiv st1 st2 ->
  same_answer_on (st_log st1') BootSector (src1 off 512) (src2 off 512) ->
  (forall ns, src1 off 512 = Some ns ->
              same_answer_on (st_log st1') MftRecord
                (src1 (mft_request_off off ns) (mft_record_size ns))
                (src2 (mft_request_off off ns) (mft_record_size ns))) ->
  observe (probe fuel src2 st2 off size2) = Some (rc, st_id st1', st_log st1').
Proof.
  intros H Hst Hboot Hrec.
  pose proof Hst as [I L].
  unfold volume_id_probe_ntfs in H |- *.
  cbn [assign_ns logging st_statics s_ns st_id st_log] in H |- *.
  destruct (src1 off 512) as [ns1 |]; destruct (src2 off 512) as [ns2 |];
    cbn [same_answer_on] in Hboot; try contradiction.
  2: { inversion H; subst. cbn. congruence. }
  specialize (Hrec ns1 eq_refl).
  destruct (memcmp_eq ns1 ns.oem_id NTFS_sig) eqn:M1; cbn [negb] in H.
  2: { inversion H; subst rc st1'. cbn [st_log st_id logging assign_ns] in *.
       assert (M2 : memcmp_eq ns2 ns.oem_id NTFS_sig = false).
       { rewrite <- M1. symmetry. apply same_bytes_memcmp, Hboot.
         rewrite !in_app_iff. simpl. auto. }
       rewrite M2. cbn. congruence. }
  cbv zeta in H.
  assert (Hlog : exists l, st_log st1' = st_log st1 ++ matched_prefix off ns1 ++ l).
  { unfold matched_prefix.
    destruct (src1 (mft_request_off off ns1) (mft_record_size ns1)) as [r1 |].
    - destruct (memcmp_eq r1 mftr.magic FILE_sig); cbn [negb] in H.
      + destruct (walk fuel r1 _ _ _) as [[e sW] |] eqn:W; [| discriminate].
        inversion H; subst rc st1'.
        destruct (walk_keeps _ _ _ _ _ _ _ W) as (_ & _ & _ & l & Hl).
        cbn [st_log logging with_id assign_mftr assign_ns found snd] in Hl |- *.
        rewrite Hl, <- !app_assoc. cbn [app]. eexists. reflexivity.
      + inversion H; subst rc st1'.
        cbn [st_log logging with_id assign_mftr assign_ns found snd].
        rewrite <- !app_assoc. cbn [app]. eexists. reflexivity.
    - inversion H; subst rc st1'. cbn [st_log logging with_id assign_ns found snd].
      rewrite <- !app_assoc. cbn [app]. exists []. reflexivity. }
  destruct Hlog as [l0 Hl0].
  assert (Hpre : agree_on (matched_prefix off ns1) BootSector ns1 ns2).
  { rewrite Hl0 in Hboot. apply agree_on_app in Hboot as [_ Hboot].
    now apply agree_on_app in Hboot. }
  assert (M2 : memcmp_eq ns2 ns.oem_id NTFS_sig = true).
  { rewrite <- M1. symmetry. apply same_bytes_memcmp, Hpre. simpl. auto. }
  assert (U : le64_at ns1 ns.volume_serial = le64_at ns2 ns.volume_serial).
  { apply same_bytes_le64, Hpre. simpl. auto. }
  destruct (geometry_agree (matched_prefix off ns1) ns1 ns2 off Hpre) as [Grs Greq].
  { intros e He. unfold matched_prefix. rewrite !in_app_iff. auto. }
  rewrite M2. cbn [negb]. cbv zeta. unfold volume_id_set_uuid in H |- *.
  rewrite <- Grs, <- Greq, <- U. clear M2 U Grs Greq Hpre Hboot l0 Hl0.
  destruct (src1 (mft_request_off off ns1) (mft_record_size ns1)) as [r1 |];
    destruct (src2 (mft_request_off off ns1) (mft_record_size ns1)) as [r2 |];
    cbn [same_answer_on] in Hrec; try contradiction.
  2: { inversion H; subst rc st1'. cbn. rewrite I, L. reflexivity. }
  destruct (memcmp_eq r1 mftr.magic FILE_sig) eqn:F1; cbn [negb] in H.
  - destruct (walk fuel r1 _ _ _) as [[e sW] |] eqn:W; [| discriminate].
    inversion H; subst rc st1'. clear H.
    cbn [st_log logging with_id found snd] in Hrec.
    destruct (walk_keeps _ _ _ _ _ _ _ W) as (_ & _ & _ & l & Hl).
    cbn [st_log logging with_id assign_mftr] in Hl.
    assert (Hhd : agree_on [ Read MftRecord mftr.magic 4; Read MftRecord mftr.attrs_offset 2 ]
                    MftRecord r1 r2).
    { intros o n Hin. apply Hrec. rewrite Hl, !in_app_iff.
      simpl in Hin. simpl. tauto. }
    assert (F2 : memcmp_eq r2 mftr.magic FILE_sig = true).
    { rewrite <- F1. symmetry. apply same_bytes_memcmp, Hhd. simpl. auto. }
    assert (A : le16_at r1 mftr.attrs_offset = le16_at r2 mftr.attrs_offset).
    { apply same_bytes_le16, Hhd. simpl. auto. }
    rewrite F2, <- A. cbn [negb].
    match goal with
    | |- observe match walk fuel r2 ?s ?a ?x2 with _ => _ end = _ =>
        destruct (walk_respects r1 r2 s fuel a _ x2 e sW W) as (s2 & W2 & [I2 L2]);
          [split; cbn; congruence | exact Hrec |]
    end.
    rewrite W2. cbn. rewrite I2, L2. reflexivity.
  - inversion H; subst rc st1'. clear H.
    cbn [st_log logging with_id found snd assign_mftr] in Hrec.
    assert (F2 : memcmp_eq r2 mftr.magic FILE_sig = false).
    { rewrite <- F1. symmetry. apply same_bytes_memcmp, Hrec.
      rewrite !in_app_iff. simpl. auto. }
    rewrite F2. cbn. rewrite I, L. reflexivity.
Qed.

End ProbeProps.

(** * The probe on example volumes *)

(** The end-to-end example: version 3.1 and label "DATA". *)
Example probe_rec_ok :
  observe (volume_id_probe_ntfs 64 32 1024 (source boot_ok 5120 1024 (Some rec_ok)) init_state 0 0)
  = Some (0,
          mk_volume_id (Some "ntfs"%string) (Some VOLUME_ID_FILESYSTEM)
            (Some [68; 0; 65; 0; 84; 0; 65; 0]) (Some [68; 65; 84; 65])
            (Some 578437695752307201) (Some "3.1"%string),
          matched_prefix 0 boot_ok
            ++ [ Read MftRecord 0 4; Read MftRecord 20 2 ]
            ++ attr_header_reads 56 ++ [ Read MftRecord 88 1; Read MftRecord 89 1 ]
            ++ attr_header_reads 96 ++ [ Read MftRecord 120 8; Read MftRecord 120 8 ]
            ++ attr_header_reads 136).
Proof. vm_compute. reflexivity. Qed.

(** C1, where the code departs from it.  On the volume [boot_ok] with the
    record [rec_past] the probe fetches the 1024 bytes of the volume
    record and then reads the two value bytes of the Volume-Name attribute
    at offset 2056: the read lies past the record, is not skipped, and its
    bytes become the label. *)
Theorem value_read_past_record :
  mft_record_size boot_ok = 1024
  /\ exists id log,
       observe (volume_id_probe_ntfs 64 32 1024
                  (source boot_ok 5120 1024 (Some rec_past)) init_state 0 0)
       = Some (0, id, log)
       /\ In (Fetch 5120 1024) log
       /\ In (Read MftRecord 2056 2) log
       /\ ~ within_record 1024 (Read MftRecord 2056 2)
       /\ id_label_raw id = Some [83; 69].
Proof.
  split; [reflexivity |].
  eexists. eexists. split; [vm_compute; reflexivity |].
  repeat split.
  - simpl. tauto.
  - simpl. tauto.
  - simpl. lia.
Qed.


(** C6 as stated does not hold: the name field "NTFSXXXX" is not the
    8-byte name "NTFS    ", and the probe returns a match on it.  No
    8-byte signature at all makes the claim true, since the probe matches
    both name fields. *)
Lemma name_field_tail_not_compared :
  name_field boot_ntfsx = name_ntfsx
  /\ name_field boot_ntfsx <> name_ntfs
  /\ observe (volume_id_probe_ntfs 64 32 1 (source boot_ntfsx 0 0 None) init_state 0 0)
     = Some (0,
             mk_volume_id (Some "ntfs"%string) (Some VOLUME_ID_FILESYSTEM) None None
               (Some 578437695752307201) None,
             matched_prefix 0 boot_ntfsx)
  /\ ~ (exists sig : list Z, forall boot : buffer,
          name_field boot <> sig ->
          return_value (volume_id_probe_ntfs 64 32 1 (source boot 0 0 None) init_state 0 0)
          = Some (-1)).
Proof.
  split; [vm_compute; reflexivity |].
  split; [vm_compute; discriminate |].
  split; [vm_compute; reflexivity |].
  intros [sig H].
  destruct (list_eq_dec Z.eq_dec (name_field boot_ok) sig) as [E | E].
  - assert (E' : name_field boot_ntfsx <> sig).
    { rewrite <- E. vm_compute. discriminate. }
    apply H in E'. vm_compute in E'. discriminate.
  - apply H in E. vm_compute in E. discriminate.
Qed.

(** * The theorems at concrete volumes *)

Lemma record_size_dual_encoding_witness :
  mft_record_size boot_minus_one = 2
  /\ mft_record_size boot_four = 4 * cluster_size boot_four
  /\ mft_record_size boot_minus_one = 2 ^ 1
  /\ mft_record_size boot_four = 4 * 4096.
Proof.
  split; [| split; [| split]].
  - apply (record_size_dual_encoding boot_minus_one). reflexivity.
  - apply (record_size_dual_encoding boot_four). reflexivity.
  - apply (proj1 (proj2 (record_size_dual_encoding boot_minus_one))). vm_compute. split; reflexivity.
  - apply (proj1 (proj2 (proj2 (record_size_dual_encoding boot_four)))). vm_compute. discriminate.
Defined.


Lemma partial_match_without_record_witness :
  (exists st', volume_id_probe_ntfs 64 32 0 (source boot_ok 5120 1024 None) init_state 0 0
               = Some (0, st')
     /\ id_type (st_id st') = Some "ntfs"%string
     /\ id_usage (st_id st') = Some VOLUME_ID_FILESYSTEM
     /\ id_uuid (st_id st') = Some (le64_at boot_ok ns.volume_serial)
     /\ id_label_raw (st_id st') = None
     /\ id_label (st_id st') = None
     /\ id_type_version (st_id st') = None)
  /\ (exists st', volume_id_probe_ntfs 64 32 0 (source boot_ok 5120 1024 (Some rec_untagged))
                    init_state 0 0 = Some (0, st')
     /\ id_type (st_id st') = Some "ntfs"%string
     /\ id_usage (st_id st') = Some VOLUME_ID_FILESYSTEM
     /\ id_uuid (st_id st') = Some (le64_at boot_ok ns.volume_serial)
     /\ id_label_raw (st_id st') = None
     /\ id_label (st_id st') = None
     /\ id_type_version (st_id st') = None).
Proof.
  split.
  - apply (partial_match_without_record 64 32 0 (source boot_ok 5120 1024 None)
             init_state 0 0 boot_ok).
    + reflexivity.
    + reflexivity.
    + left. reflexivity.
  - apply (partial_match_without_record 64 32 0 (source boot_ok 5120 1024 (Some rec_untagged))
             init_state 0 0 boot_ok).
    + reflexivity.
    + reflexivity.
    + right. exists rec_untagged. split; [reflexivity |]. vm_compute. discriminate.
Defined.

Lemma signature_mismatch_no_match_witness :
  observe (volume_id_probe_ntfs 64 32 0 (source boot_fat 5120 1024 (Some rec_ok)) init_state 0 0)
  = Some (-1, empty_id, [ Fetch 0 512; Read BootSector ns.oem_id 4 ])
  /\ Forall within_boot_sector [ Fetch 0 512; Read BootSector ns.oem_id 4 ].
Proof.
  apply (signature_mismatch_no_match 64 32 0 (source boot_fat 5120 1024 (Some rec_ok))
           init_state 0 0 boot_fat).
  - reflexivity.
  - vm_compute. discriminate.
Defined.

Lemma volume_name_label_clamped_witness :
  exists st',
    attr_walk_body 64 32 rec_long 1024 56 init_state = (inr 256, st')
    /\ id_label_raw (st_id st') = Some (bytes_at rec_long 80 64)
    /\ id_label (st_id st') = Some (code_units_le (bytes_at rec_long 80 64))
    /\ Z.of_nat (List.length (bytes_at rec_long 80 64)) = 64.
Proof.
  eexists. split; [reflexivity |].
  destruct (volume_name_label_clamped 64 32 rec_long 1024 56 init_state 256 _
              ltac:(lia) eq_refl eq_refl) as (R & T & _ & N & _).
  split; [exact R |]. split; [exact T |].
  apply N. vm_compute. reflexivity.
Defined.

Lemma probe_deterministic_witness :
  observe (volume_id_probe_ntfs 64 32 1024 source_other state_other 0 7)
  = observe (volume_id_probe_ntfs 64 32 1024 (source boot_ok 5120 1024 (Some rec_ok))
               init_state 0 0).
Proof.
  transitivity (Some (0, st_id (final_state run_ok), st_log (final_state run_ok)));
    [| vm_compute; reflexivity].
  apply (probe_deterministic 64 32 1024 (source boot_ok 5120 1024 (Some rec_ok)) source_other
           init_state state_other 0 0 7 0 (final_state run_ok)).
  - reflexivity.
  - split; reflexivity.
  - change (agree_on (st_log (final_state run_ok)) BootSector boot_ok (patch boot_ok 100 [7; 7])).
    apply agree_onb_sound. vm_compute. reflexivity.
  - intros ns Hns. change (Some boot_ok = Some ns) in Hns. injection Hns as <-.
    change (agree_on (st_log (final_state run_ok)) MftRecord rec_ok (patch rec_ok 500 [9])).
    apply agree_onb_sound. vm_compute. reflexivity.
Defined.

(** * Further properties of the probe *)

Lemma all_bytes_sound (P : Z -> bool) :
  all_bytes P = true -> forall b, 0 <= b < 256 -> P b = true.
Proof.
  unfold all_bytes. intros H b Hb. rewrite forallb_forall in H.
  specialize (H (Z.to_nat b)). rewrite Z2Nat.id in H by lia.
  apply H, in_seq. lia.
Qed.

Lemma decimal_aux_length (fuel : nat) (n : Z) (acc : string) :
  (String.length (decimal_aux fuel n acc) <= fuel + String.length acc)%nat.
Proof.
  revert n acc. induction fuel as [| fuel IH]; intros n acc; simpl; [lia |].
  destruct (n / 10 =? 0); simpl; [lia |].
  specialize (IH (n / 10) (String (ascii_of_nat (Z.to_nat (48 + n mod 10))) acc)).
  simpl in IH. lia.
Qed.

Lemma append_length (s1 s2 : string) :
  String.length (String.append s1 s2) = (String.length s1 + String.length s2)%nat.
Proof. induction s1 as [| c s1 IH]; simpl; [reflexivity | now rewrite IH]. Qed.

(** A version text has at most seven characters. *)
Lemma version_string_length (major minor : Z) :
  (String.length (version_string major minor) <= 7)%nat.
Proof.
  unfold version_string, decimal. rewrite append_length. simpl.
  pose proof (decimal_aux_length 3 major EmptyString).
  pose proof (decimal_aux_length 3 minor EmptyString). simpl in *. lia.
Qed.

Lemma substring_whole (s : string) (n : nat) :
  (String.length s <= n)%nat -> substring 0 n s = s.
Proof.
  revert n. induction s as [| c s IH]; intros n H.
  - destruct n; reflexivity.
  - destruct n; simpl in *; [lia |]. rewrite IH by lia. reflexivity.
Qed.

Lemma substring_length_le (s : string) (n : nat) :
  (String.length (substring 0 n s) <= n)%nat.
Proof.
  revert n. induction s as [| c s IH]; intros n.
  - destruct n; simpl; lia.
  - destruct n; simpl; [lia |]. specialize (IH n). lia.
Qed.


Section Coverage.

Variable VOLUME_ID_LABEL_SIZE : Z.
Variable VOLUME_ID_FORMAT_SIZE : Z.

Abbreviation body := (attr_walk_body VOLUME_ID_LABEL_SIZE VOLUME_ID_FORMAT_SIZE).
Abbreviation walk := (attr_walk VOLUME_ID_LABEL_SIZE VOLUME_ID_FORMAT_SIZE).
Abbreviation probe := (volume_id_probe_ntfs VOLUME_ID_LABEL_SIZE VOLUME_ID_FORMAT_SIZE).

Ltac case_ifs :=
  repeat match goal with
         | |- context [if ?c then _ else _] => destruct c
         end.

(** X5.  One iteration of the walk writes at most one thing: the label
    (raw and text) only when it processes a Volume-Name attribute, the
    version only when it processes a Volume-Info attribute.  The type, the
    usage and the uuid are never written, and an attribute of any other
    type (an object id, say) that does not end the walk is stepped over
    with nothing but its four header fields read. *)
Theorem attribute_frame (buf : buffer) (size a : Z) (st : state) r (st' : state) :
  let ty := le32_to_cpu (le32_at buf (a + attr.type)) in
  body buf size a st = (r, st') ->
  id_type (st_id st') = id_type (st_id st)
  /\ id_usage (st_id st') = id_usage (st_id st)
  /\ id_uuid (st_id st') = id_uuid (st_id st)
  /\ (ty <> MFT_RECORD_ATTR_VOLUME_NAME ->
        id_label_raw (st_id st') = id_label_raw (st_id st)
        /\ id_label (st_id st') = id_label (st_id st))
  /\ (ty <> MFT_RECORD_ATTR_VOLUME_INFO ->
        id_type_version (st_id st') = id_type_version (st_id st))
  /\ (ty <> MFT_RECORD_ATTR_VOLUME_NAME -> ty <> MFT_RECORD_ATTR_VOLUME_INFO ->
        st_id st' = st_id st /\ st_log st' = st_log st ++ attr_header_reads a).
Proof.
  intros ty. rewrite body_unfold. cbv zeta. fold ty.
  unfold volume_info_step, volume_name_step, snprintf_version.
  destruct (_ =? 0); [intros H; inversion H; subst; cbn; tauto |].
  destruct (_ >=? size); [intros H; inversion H; subst; cbn; tauto |].
  destruct (ty =? MFT_RECORD_ATTR_END); [intros H; inversion H; subst; cbn; tauto |].
  destruct (ty =? MFT_RECORD_ATTR_VOLUME_INFO) eqn:EI;
    destruct (ty =? MFT_RECORD_ATTR_VOLUME_NAME) eqn:EN;
    try apply Z.eqb_eq in EI; try apply Z.eqb_eq in EN;
    case_ifs; intros H; inversion H; subst; cbn;
    repeat split; try reflexivity; try congruence; intros; try congruence.
  all: destruct (st_id st); reflexivity.
Qed.

(** X6.  A Volume-Info attribute that the walk processes sets the version
    to the text "major.minor" of the two bytes at value offset + 8 and
    + 9, in decimal.  The text is stored whole when the version field has
    at least 9 bytes; a smaller field keeps its first [size - 2]
    characters, and a field of one byte or none is left as it was.  The
    label is untouched. *)
Theorem volume_info_sets_version (buf : buffer) (size a : Z) (st : state) (a' : Z) (st' : state) :
  let val_off := le16_to_cpu (le16_at buf (a + attr.value_offset)) in
  let text := version_string (byte_at buf (a + val_off + info.major_ver))
                             (byte_at buf (a + val_off + info.minor_ver)) in
  le32_to_cpu (le32_at buf (a + attr.type)) = MFT_RECORD_ATTR_VOLUME_INFO ->
  body buf size a st = (inr a', st') ->
  (9 <= VOLUME_ID_FORMAT_SIZE -> id_type_version (st_id st') = Some text)
  /\ (2 <= VOLUME_ID_FORMAT_SIZE ->
        exists stored, id_type_version (st_id st') = Some stored
          /\ stored = substring 0 (Z.to_nat (VOLUME_ID_FORMAT_SIZE - 2)) text
          /\ Z.of_nat (String.length stored) <= VOLUME_ID_FORMAT_SIZE - 2)
  /\ (VOLUME_ID_FORMAT_SIZE <= 1 ->
        id_type_version (st_id st') = id_type_version (st_id st))
  /\ id_label_raw (st_id st') = id_label_raw (st_id st)
  /\ id_label (st_id st') = id_label (st_id st)
  /\ st_log st' = st_log st ++ attr_header_reads a
                    ++ [ Read MftRecord (a + val_off + info.major_ver) 1;
                         Read MftRecord (a + val_off + info.minor_ver) 1 ].
Proof.
  intros val_off text Hty Hb.
  rewrite body_unfold in Hb. cbv zeta in Hb. rewrite Hty in Hb. fold val_off in Hb.
  destruct (_ =? 0); [discriminate |].
  destruct (_ >=? size); [discriminate |].
  change (MFT_RECORD_ATTR_VOLUME_INFO =? MFT_RECORD_ATTR_END) with false in Hb.
  change (MFT_RECORD_ATTR_VOLUME_INFO =? MFT_RECORD_ATTR_VOLUME_INFO) with true in Hb.
  change (MFT_RECORD_ATTR_VOLUME_INFO =? MFT_RECORD_ATTR_VOLUME_NAME) with false in Hb.
  inversion Hb; subst a' st'. clear Hb.
  unfold volume_info_step, snprintf_version.
  fold (version_string (byte_at buf (a + val_off + info.major_ver))
                       (byte_at buf (a + val_off + info.minor_ver))). fold text.
  pose proof (version_string_length (byte_at buf (a + val_off + info.major_ver))
                (byte_at buf (a + val_off + info.minor_ver))) as Hlen. fold text in Hlen.
  replace (VOLUME_ID_FORMAT_SIZE - 1 - 1) with (VOLUME_ID_FORMAT_SIZE - 2) by lia.
  destruct (VOLUME_ID_FORMAT_SIZE - 1 <=? 0) eqn:E;
    [apply Z.leb_le in E | apply Z.leb_gt in E];
    cbn [st_id st_log with_id logging assign_info assign_attr set_type_version
         id_type_version id_label_raw id_label].
  - split; [intros; lia |]. split; [intros; lia |].
    repeat split. now rewrite <- app_assoc.
  - split.
    { intros H9. rewrite substring_whole by lia. reflexivity. }
    split.
    { intros _. eexists. split; [reflexivity |]. split; [reflexivity |].
      pose proof (substring_length_le text (Z.to_nat (VOLUME_ID_FORMAT_SIZE - 2))). lia. }
    split; [intros; lia |].
    repeat split. now rewrite <- app_assoc.
Qed.

(** X11.  A first-attribute offset at or beyond the record size is not
    rejected before the loop: the first iteration reads the four header
    fields at that offset, every one of them outside the record.  Unless
    the 32-bit total length read there wraps the offset round, the walk
    then ends in that iteration, on a zero length or on the bounds check,
    without a label or a version. *)
Theorem first_offset_past_record (buf : buffer) (size : Z) (st : state) (fuel : nat) :
  let a := le16_to_cpu (le16_at buf mftr.attrs_offset) in
  let len := le16_to_cpu (le32_at buf (a + attr.len)) in
  size <= a ->
  Forall (fun e => ~ within_record size e) (attr_header_reads a)
  /\ (exists r st1 l, body buf size a st = (r, st1)
         /\ st_log st1 = st_log st ++ attr_header_reads a ++ l)
  /\ (a + len < 4294967296 ->
      exists e, (e = ExitLenZero \/ e = ExitPastRecord)
        /\ observe_walk (walk (S fuel) buf size a st)
           = Some (e, st_id st, st_log st ++ attr_header_reads a)).
Proof.
  intros a len Hsz.
  pose proof (le16_field_range buf mftr.attrs_offset) as Ha. fold a in Ha.
  pose proof (len_field_range buf (a + attr.len)) as Hl. fold len in Hl.
  split; [| split].
  - unfold attr_header_reads, attr.type, attr.len, attr.value_offset, attr.value_len.
    repeat constructor; simpl; lia.
  - destruct (body buf size a st) as [r st1] eqn:Eb.
    destruct (body_log VOLUME_ID_LABEL_SIZE VOLUME_ID_FORMAT_SIZE _ _ _ _ _ _ Eb) as [l Hl0].
    exists r, st1, l. split; [reflexivity | exact Hl0].
  - intros Hw. simpl. rewrite body_unfold. cbv zeta. fold len.
    destruct (len =? 0) eqn:E0.
    + exists ExitLenZero. split; [auto | reflexivity].
    + apply Z.eqb_neq in E0. rewrite (u32_small (a + len)) by lia.
      assert (E1 : (a + len >=? size) = true) by (apply Z.geb_le; lia).
      rewrite E1. exists ExitPastRecord. split; [auto | reflexivity].
Qed.

Lemma Forall_record_read_weaken (b1 b2 : Z) (l : list event) :
  b1 <= b2 -> Forall (record_read_below b1) l -> Forall (record_read_below b2) l.
Proof.
  intros Hb. apply Forall_impl. intros [o n | [] o n]; simpl; try tauto. lia.
Qed.

(** The reads of one iteration start at index 0 or later and end within
    65535 + max 10 label-size bytes of the attribute. *)
Lemma body_reads_bounded (buf : buffer) (size a : Z) (st : state) r (st' : state) :
  0 <= VOLUME_ID_LABEL_SIZE -> 0 <= a ->
  body buf size a st = (r, st') ->
  exists l, st_log st' = st_log st ++ l
    /\ Forall (record_read_below (a + 65535 + Z.max 10 VOLUME_ID_LABEL_SIZE)) l.
Proof.
  intros HL Ha. rewrite body_unfold. cbv zeta.
  unfold volume_info_step, volume_name_step.
  set (vo := le16_to_cpu (le16_at buf (a + attr.value_offset))).
  set (vl := le32_to_cpu (le32_at buf (a + attr.value_len))).
  set (n := if vl >? VOLUME_ID_LABEL_SIZE then VOLUME_ID_LABEL_SIZE else vl).
  pose proof (le16_field_range buf (a + attr.value_offset)) as Hvo. fold vo in Hvo.
  pose proof (le32_field_range buf (a + attr.value_len)) as Hvl. fold vl in Hvl.
  assert (Hn : 0 <= n <= VOLUME_ID_LABEL_SIZE).
  { unfold n. rewrite Z.gtb_ltb.
    destruct (VOLUME_ID_LABEL_SIZE <? vl) eqn:E;
      [apply Z.ltb_lt in E | apply Z.ltb_ge in E]; lia. }
  assert (Hh : Forall (record_read_below (a + 65535 + Z.max 10 VOLUME_ID_LABEL_SIZE))
                 (attr_header_reads a)).
  { unfold attr_header_reads, attr.type, attr.len, attr.value_offset, attr.value_len.
    repeat constructor; simpl; lia. }
  assert (Hi : Forall (record_read_below (a + 65535 + Z.max 10 VOLUME_ID_LABEL_SIZE))
                 [ Read MftRecord (a + vo + info.major_ver) 1;
                   Read MftRecord (a + vo + info.minor_ver) 1 ]).
  { unfold info.major_ver, info.minor_ver. repeat constructor; simpl; lia. }
  assert (Hm : Forall (record_read_below (a + 65535 + Z.max 10 VOLUME_ID_LABEL_SIZE))
                 [ Read MftRecord (a + vo) n ]).
  { repeat constructor; simpl; lia. }
  clearbody n vo vl.
  case_ifs; intros H; inversion H; subst;
    cbn [st_log logging with_id assign_attr assign_info];
    rewrite <- ?app_assoc; eexists; (split; [reflexivity |]);
    repeat (apply Forall_app; split); assumption.
Qed.

(** An iteration that goes on leaves the offset below the record size. *)
Lemma body_next_below (buf : buffer) (size a : Z) (st : state) (a' : Z) (st' : state) :
  body buf size a st = (inr a', st') -> 0 <= a' < size.
Proof.
  rewrite body_unfold. cbv zeta.
  destruct (_ =? 0); [discriminate |].
  destruct (u32 _ >=? size) eqn:E1; [discriminate |].
  destruct (_ =? MFT_RECORD_ATTR_END); [discriminate |].
  intros H. inversion H; subst a'. clear H.
  rewrite Z.geb_leb in E1. apply Z.leb_gt in E1.
  split; [| exact E1]. unfold u32. apply Z.mod_pos_bound. reflexivity.
Qed.

(** The reads of a walk, from an offset that stays below
    [max size 65536]. *)
Lemma walk_reads_bounded (buf : buffer) (size : Z) :
  0 <= VOLUME_ID_LABEL_SIZE ->
  forall (fuel : nat) (a : Z) (st : state) e (st' : state),
    0 <= a < Z.max size 65536 ->
    walk fuel buf size a st = Some (e, st') ->
    exists l, st_log st' = st_log st ++ l
      /\ Forall (record_read_below (overread_bound VOLUME_ID_LABEL_SIZE size)) l.
Proof.
  intros HL. induction fuel as [| fuel IH]; intros a st e st' Ha Hw; [discriminate |].
  simpl in Hw. destruct (body buf size a st) as [[e1 | a1] sm] eqn:Eb.
  - inversion Hw; subst.
    destruct (body_reads_bounded _ _ _ _ _ _ HL (proj1 Ha) Eb) as (l & Hl & Hf).
    exists l. split; [exact Hl |].
    revert Hf. apply Forall_record_read_weaken. unfold overread_bound. lia.
  - destruct (body_reads_bounded _ _ _ _ _ _ HL (proj1 Ha) Eb) as (l & Hl & Hf).
    pose proof (body_next_below _ _ _ _ _ _ Eb) as Hp.
    destruct (IH a1 sm e st' ltac:(lia) Hw) as (l' & Hl' & Hf').
    exists (l ++ l'). split; [rewrite Hl', Hl; now rewrite app_assoc |].
    apply Forall_app. split; [| exact Hf'].
    revert Hf. apply Forall_record_read_weaken. unfold overread_bound. lia.
Qed.

(** X8.  The attribute walk reads through the record pointer only (no
    request, no read of the boot sector), never before the start of the
    record, and never further than [max record_size 65536 + 65534 +
    max 10 label_size] bytes from it: reads past the record are possible
    but bounded, by the 16-bit attribute and value offsets and the clamped
    label length. *)
Theorem walk_overread_bounded (boot buf : buffer) (st : state) (fuel : nat) e (st' : state) :
  let size := mft_record_size boot in
  let attr_off := le16_to_cpu (le16_at buf mftr.attrs_offset) in
  0 <= VOLUME_ID_LABEL_SIZE ->
  walk fuel buf size attr_off st = Some (e, st') ->
  exists l, st_log st' = st_log st ++ l
    /\ Forall (record_read_below (overread_bound VOLUME_ID_LABEL_SIZE size)) l.
Proof.
  intros size attr_off HL Hw.
  pose proof (le16_field_range buf mftr.attrs_offset) as Ha. fold attr_off in Ha.
  apply (walk_reads_bounded buf size HL fuel attr_off st e st'); [lia | exact Hw].
Qed.

(** One iteration keeps the label within the label size. *)
Lemma body_label_fits (buf : buffer) (size a : Z) (st : state) r (st' : state) :
  0 <= VOLUME_ID_LABEL_SIZE ->
  body buf size a st = (r, st') ->
  label_fits VOLUME_ID_LABEL_SIZE (st_id st) ->
  label_fits VOLUME_ID_LABEL_SIZE (st_id st').
Proof.
  intros HL. rewrite body_unfold. cbv zeta.
  unfold volume_info_step, volume_name_step, snprintf_version, label_fits.
  set (vl := le32_to_cpu (le32_at buf (a + attr.value_len))).
  set (n := if vl >? VOLUME_ID_LABEL_SIZE then VOLUME_ID_LABEL_SIZE else vl).
  assert (Hn : n <= VOLUME_ID_LABEL_SIZE).
  { unfold n. rewrite Z.gtb_ltb.
    destruct (VOLUME_ID_LABEL_SIZE <? vl) eqn:E;
      [apply Z.ltb_lt in E | apply Z.ltb_ge in E]; lia. }
  clearbody n vl.
  case_ifs; intros H; inversion H; subst; cbn; intros Hf;
    rewrite ?bytes_at_length; try exact Hf; lia.
Qed.

Lemma walk_label_fits (buf : buffer) (size : Z) :
  0 <= VOLUME_ID_LABEL_SIZE ->
  forall (fuel : nat) (a : Z) (st : state) e (st' : state),
    walk fuel buf size a st = Some (e, st') ->
    label_fits VOLUME_ID_LABEL_SIZE (st_id st) ->
    label_fits VOLUME_ID_LABEL_SIZE (st_id st').
Proof.
  intros HL. induction fuel as [| fuel IH]; intros a st e st' Hw Hf; [discriminate |].
  simpl in Hw. destruct (body buf size a st) as [[e1 | a1] sm] eqn:Eb.
  - inversion Hw; subst. exact (body_label_fits _ _ _ _ _ _ HL Eb Hf).
  - apply (IH _ _ _ _ Hw). exact (body_label_fits _ _ _ _ _ _ HL Eb Hf).
Qed.

Lemma body_log_reads (buf : buffer) (size a : Z) (st : state) r (st' : state) :
  body buf size a st = (r, st') ->
  exists l, st_log st' = st_log st ++ l /\ Forall is_record_read l.
Proof.
  rewrite body_unfold. cbv zeta.
  unfold volume_info_step, volume_name_step.
  case_ifs; intros H; inversion H; subst;
    cbn [st_log logging with_id assign_attr assign_info];
    rewrite <- ?app_assoc; eexists; (split; [reflexivity |]);
    repeat (apply Forall_app; split); repeat constructor.
Qed.

Lemma walk_log_reads (buf : buffer) (size : Z) :
  forall (fuel : nat) (a : Z) (st : state) e (st' : state),
    walk fuel buf size a st = Some (e, st') ->
    exists l, st_log st' = st_log st ++ l /\ Forall is_record_read l.
Proof.
  induction fuel as [| fuel IH]; intros a st e st' Hw; [discriminate |].
  simpl in Hw. destruct (body buf size a st) as [[e1 | a1] sm] eqn:Eb.
  - inversion Hw; subst. exact (body_log_reads _ _ _ _ _ _ Eb).
  - destruct (body_log_reads _ _ _ _ _ _ Eb) as (l & Hl & Hf).
    destruct (IH _ _ _ _ Hw) as (l' & Hl' & Hf').
    exists (l ++ l'). split; [rewrite Hl', Hl; now rewrite app_assoc |].
    now apply Forall_app.
Qed.

Lemma memcmp_eq_false (p : buffer) (i : Z) (s : list Z) :
  memcmp_eq p i s = false <-> bytes_at p i (Z.of_nat (List.length s)) <> s.
Proof.
  unfold memcmp_eq. destruct (list_eq_dec _ _ _); split; intros; congruence.
Qed.

(** The three ways a run ends: no boot sector, no signature, or a match. *)
Lemma probe_shape (fuel : nat) (src : Z -> Z -> option buffer) (st : state)
    (off size rc : Z) (st' : state) :
  probe fuel src st off size = Some (rc, st') ->
  (src off 512 = None /\ rc = -1 /\ st_id st' = st_id st
     /\ st_log st' = st_log st ++ [ Fetch off 512 ])
  \/ (exists ns, src off 512 = Some ns /\ bytes_at ns ns.oem_id 4 <> NTFS_sig /\ rc = -1
        /\ st_id st' = st_id st
        /\ st_log st' = st_log st ++ [ Fetch off 512; Read BootSector ns.oem_id 4 ])
  \/ (exists ns l, src off 512 = Some ns /\ bytes_at ns ns.oem_id 4 = NTFS_sig /\ rc = 0
        /\ st_log st' = st_log st ++ matched_prefix off ns ++ l
        /\ Forall is_record_read l
        /\ id_type (st_id st') = Some "ntfs"%string
        /\ id_usage (st_id st') = Some VOLUME_ID_FILESYSTEM
        /\ id_uuid (st_id st') = Some (le64_at ns ns.volume_serial)
        /\ (0 <= VOLUME_ID_LABEL_SIZE ->
            label_fits VOLUME_ID_LABEL_SIZE (st_id st) ->
            label_fits VOLUME_ID_LABEL_SIZE (st_id st'))).
Proof.
  intros H. unfold volume_id_probe_ntfs in H.
  cbn [assign_ns logging st_statics s_ns st_id st_log] in H.
  destruct (src off 512) as [ns |].
  2: { left. inversion H; subst. cbn. auto. }
  right.
  destruct (memcmp_eq ns ns.oem_id NTFS_sig) eqn:M; cbn [negb] in H.
  2: { left. exists ns. apply memcmp_eq_false in M. inversion H; subst. cbn.
       rewrite <- app_assoc. auto. }
  right. apply memcmp_eq_true in M. cbv zeta in H.
  exists ns.
  destruct (src (mft_request_off off ns) (mft_record_size ns)) as [buf |].
  - destruct (memcmp_eq buf mftr.magic FILE_sig); cbn [negb] in H.
    + destruct (walk fuel buf _ _ _) as [[e sW] |] eqn:W; [| discriminate].
      inversion H; subst rc st'. clear H.
      destruct (walk_keeps VOLUME_ID_LABEL_SIZE VOLUME_ID_FORMAT_SIZE _ _ _ _ _ _ _ W)
        as (U & _ & _ & _).
      destruct (walk_log_reads _ _ _ _ _ _ _ W) as (l & Hl & Hf).
      pose proof (fun HL => walk_label_fits _ _ HL _ _ _ _ _ W) as F.
      cbn [st_log st_id logging with_id assign_mftr assign_ns] in Hl, U, F.
      exists ([ Read MftRecord mftr.magic 4; Read MftRecord mftr.attrs_offset 2 ] ++ l).
      split; [reflexivity |]. split; [exact M |]. split; [reflexivity |].
      split.
      { cbn [found snd st_log with_id]. rewrite Hl. unfold matched_prefix.
        rewrite <- !app_assoc. reflexivity. }
      split; [apply Forall_app; split; [repeat constructor | exact Hf] |].
      cbn [found snd st_id with_id set_type volume_id_set_usage
           id_type id_usage id_uuid id_label_raw id_label id_type_version].
      split; [reflexivity |]. split; [reflexivity |]. split; [exact U |].
      intros HL Hfit. change (label_fits VOLUME_ID_LABEL_SIZE (st_id sW)).
      apply (F HL). exact Hfit.
    + inversion H; subst rc st'. clear H.
      exists [ Read MftRecord mftr.magic 4 ].
      split; [reflexivity |]. split; [exact M |]. split; [reflexivity |].
      split.
      { cbn. unfold matched_prefix. rewrite <- !app_assoc. reflexivity. }
      split; [repeat constructor |].
      cbn. split; [reflexivity |]. split; [reflexivity |]. split; [reflexivity |].
      unfold label_fits. cbn. auto.
  - inversion H; subst rc st'. clear H.
    exists [].
    split; [reflexivity |]. split; [exact M |]. split; [reflexivity |].
    split.
    { cbn. unfold matched_prefix. rewrite <- !app_assoc. reflexivity. }
    split; [constructor |].
    cbn. split; [reflexivity |]. split; [reflexivity |]. split; [reflexivity |].
    unfold label_fits. cbn. auto.
Qed.

Lemma requests_record_reads (l : list event) :
  Forall is_record_read l -> requests l = [].
Proof.
  induction 1 as [| e l He _ IH]; [reflexivity |].
  unfold requests in *. simpl. destruct e as [o n | [] o n]; simpl in *; try contradiction.
  exact IH.
Qed.

(** X1.  A run returns -1 or 0 and nothing else.  When the boot sector
    is unavailable or the first four bytes of its name field are not
    "NTFS" the run returns, whatever the bound on the walk, with -1 and
    the identity result as it was.  A run that returns, returns -1 in
    exactly these two cases; in every other case it returns 0 with the
    type, the usage and the uuid all set. *)
Theorem probe_return_value (fuel : nat) (src : Z -> Z -> option buffer) (st : state)
    (off size : Z) :
  let no_match := src off 512 = None
                  \/ exists ns, src off 512 = Some ns /\ bytes_at ns ns.oem_id 4 <> NTFS_sig in
  (no_match -> exists st', probe fuel src st off size = Some (-1, st')
                           /\ st_id st' = st_id st)
  /\ (forall rc st', probe fuel src st off size = Some (rc, st') ->
        (rc = 0 \/ rc = -1)
        /\ (rc = -1 <-> no_match)
        /\ (rc = -1 -> st_id st' = st_id st)
        /\ (rc = 0 -> id_type (st_id st') = Some "ntfs"%string
                      /\ id_usage (st_id st') = Some VOLUME_ID_FILESYSTEM
                      /\ id_uuid (st_id st') <> None)).
Proof.
  intros no_match. split.
  - intros [E | (ns & E & M)]; unfold volume_id_probe_ntfs;
      cbn [assign_ns logging st_statics s_ns st_id st_log]; rewrite E.
    + eexists. split; reflexivity.
    + apply (memcmp_eq_false ns ns.oem_id NTFS_sig) in M. rewrite M.
      eexists. split; reflexivity.
  - intros rc st' Hp. unfold no_match.
    destruct (probe_shape _ _ _ _ _ _ _ Hp)
      as [(E & R & I & _) | [(ns & E & M & R & I & _) | (ns & l & E & M & R & _ & _ & T & G & U & _)]];
      subst rc.
    + repeat split; auto; try discriminate.
    + repeat split; eauto; try discriminate.
    + split; [auto |]. split.
      { split; [discriminate |]. intros [E' | (ns' & E' & M')]; congruence. }
      split; [discriminate |]. intros _. repeat split; try assumption. congruence.
Qed.

(** X2.  A run asks the buffer source for the 512 bytes of the boot
    sector first, and for nothing else unless the signature is found; on a
    match it asks once more, for the volume record at the computed offset
    and length.  The attribute walk makes no request. *)
Theorem probe_requests (fuel : nat) (src : Z -> Z -> option buffer) (st : state)
    (off size rc : Z) (st' : state) :
  probe fuel src st off size = Some (rc, st') ->
  exists l, st_log st' = st_log st ++ l
    /\ ((rc = -1 /\ requests l = [ Fetch off 512 ])
        \/ (rc = 0 /\ exists ns, src off 512 = Some ns
              /\ requests l = [ Fetch off 512;
                                Fetch (mft_request_off off ns) (mft_record_size ns) ])).
Proof.
  intros Hp.
  destruct (probe_shape _ _ _ _ _ _ _ Hp)
    as [(E & R & _ & L) | [(ns & E & M & R & _ & L) | (ns & l & E & M & R & L & Hf & _)]].
  - eexists. split; [exact L |]. left. split; [exact R | reflexivity].
  - eexists. split; [exact L |]. left. split; [exact R | reflexivity].
  - eexists. split; [exact L |]. right. split; [exact R |]. exists ns. split; [exact E |].
    unfold requests, matched_prefix. rewrite !filter_app.
    fold (requests l). rewrite (requests_record_reads l Hf). reflexivity.
Qed.

(** X3.  Every read of the boot sector lies within the 512 bytes that
    were requested, for every boot sector and every record: the reads are
    the signature, the serial and the four geometry fields, and the
    attribute walk never goes back to the boot sector. *)
Theorem boot_sector_reads_within (fuel : nat) (src : Z -> Z -> option buffer) (st : state)
    (off size rc : Z) (st' : state) :
  probe fuel src st off size = Some (rc, st') ->
  exists l, st_log st' = st_log st ++ l /\ Forall within_boot_sector l.
Proof.
  intros Hp.
  destruct (probe_shape _ _ _ _ _ _ _ Hp)
    as [(E & R & _ & L) | [(ns & E & M & R & _ & L) | (ns & l & E & M & R & L & Hf & _)]].
  - eexists. split; [exact L |]. repeat constructor.
  - eexists. split; [exact L |]. repeat constructor; unfold ns.oem_id; lia.
  - eexists. split; [exact L |].
    apply Forall_app. split.
    + unfold matched_prefix, geometry_reads. repeat constructor; cbv; discriminate.
    + revert Hf. apply Forall_impl. intros [o n | [] o n]; simpl; tauto.
Qed.

(** X10.  The raw label never outgrows the label buffer over a whole run:
    if the label the result holds before the call fits the maximum label
    size (or there is none), so does the label after the call, however
    many Volume-Name attributes the record holds and whatever lengths
    they declare. *)
Theorem probe_label_fits (fuel : nat) (src : Z -> Z -> option buffer) (st : state)
    (off size rc : Z) (st' : state) :
  0 <= VOLUME_ID_LABEL_SIZE ->
  label_fits VOLUME_ID_LABEL_SIZE (st_id st) ->
  probe fuel src st off size = Some (rc, st') ->
  label_fits VOLUME_ID_LABEL_SIZE (st_id st').
Proof.
  intros HL Hfit Hp.
  destruct (probe_shape _ _ _ _ _ _ _ Hp)
    as [(_ & _ & I & _) | [(ns & _ & _ & _ & I & _) | (ns & l & _ & _ & _ & _ & _ & _ & _ & _ & F)]].
  - now rewrite I.
  - now rewrite I.
  - now apply F.
Qed.

Lemma version_check :
  all_bytes (fun major =>
    all_bytes (fun minor =>
      let (a, b) := parse_version (version_string major minor) in
      (a =? major) && (b =? minor))) = true.
Proof. vm_compute. reflexivity. Qed.

(** X7.  The version text can be read back: for a Volume-Info attribute
    that the walk processes into a version field of at least 9 bytes, the
    number before the dot of the stored text is the major version byte
    and the number after it the minor one, so two attributes with
    different version bytes never give the same text. *)
Theorem version_round_trip (buf : buffer) (size a : Z) (st : state) (a' : Z) (st' : state) :
  let val_off := le16_to_cpu (le16_at buf (a + attr.value_offset)) in
  9 <= VOLUME_ID_FORMAT_SIZE ->
  le32_to_cpu (le32_at buf (a + attr.type)) = MFT_RECORD_ATTR_VOLUME_INFO ->
  body buf size a st = (inr a', st') ->
  exists text, id_type_version (st_id st') = Some text
    /\ parse_version text = (byte_at buf (a + val_off + info.major_ver),
                             byte_at buf (a + val_off + info.minor_ver)).
Proof.
  intros val_off H9 Hty Hb.
  rewrite body_unfold in Hb. cbv zeta in Hb. rewrite Hty in Hb. fold val_off in Hb.
  destruct (_ =? 0); [discriminate |].
  destruct (_ >=? size); [discriminate |].
  change (MFT_RECORD_ATTR_VOLUME_INFO =? MFT_RECORD_ATTR_END) with false in Hb.
  change (MFT_RECORD_ATTR_VOLUME_INFO =? MFT_RECORD_ATTR_VOLUME_INFO) with true in Hb.
  change (MFT_RECORD_ATTR_VOLUME_INFO =? MFT_RECORD_ATTR_VOLUME_NAME) with false in Hb.
  inversion Hb; subst a' st'. clear Hb.
  set (major := byte_at buf (a + val_off + info.major_ver)).
  set (minor := byte_at buf (a + val_off + info.minor_ver)).
  unfold volume_info_step, snprintf_version. fold major minor.
  fold (version_string major minor).
  assert (E : (VOLUME_ID_FORMAT_SIZE - 1 <=? 0) = false) by (apply Z.leb_gt; lia).
  rewrite E.
  pose proof (version_string_length major minor) as Hlen.
  rewrite substring_whole by lia.
  exists (version_string major minor). split; [reflexivity |].
  pose proof (all_bytes_sound _ version_check major (byte_at_range _ _)) as H1.
  cbv beta in H1.
  pose proof (all_bytes_sound _ H1 minor (byte_at_range _ _)) as H2.
  cbv beta in H2.
  destruct (parse_version (version_string major minor)) as [x y].
  apply andb_true_iff in H2 as [Hx Hy].
  apply Z.eqb_eq in Hx, Hy. congruence.
Qed.

End Coverage.

(** * The further properties at concrete volumes *)


Lemma attribute_frame_witness :
  st_id (snd (attr_walk_body 64 32 rec_object_id 1024 56 init_state)) = empty_id
  /\ st_log (snd (attr_walk_body 64 32 rec_object_id 1024 56 init_state))
     = attr_header_reads 56.
Proof.
  apply (attribute_frame 64 32 rec_object_id 1024 56 init_state (inr 80)
           (snd (attr_walk_body 64 32 rec_object_id 1024 56 init_state))).
  - reflexivity.
  - vm_compute. discriminate.
  - vm_compute. discriminate.
Defined.

Lemma volume_info_sets_version_witness :
  id_type_version (st_id (snd (attr_walk_body 64 32 rec_ok 1024 56 init_state)))
  = Some (version_string 3 1).
Proof.
  apply (volume_info_sets_version 64 32 rec_ok 1024 56 init_state 96
           (snd (attr_walk_body 64 32 rec_ok 1024 56 init_state))).
  - reflexivity.
  - reflexivity.
  - lia.
Defined.

Lemma first_offset_past_record_witness :
  Forall (fun e => ~ within_record 32 e)
    (attr_header_reads (le16_to_cpu (le16_at rec_ok mftr.attrs_offset)))
  /\ exists e, (e = ExitLenZero \/ e = ExitPastRecord)
       /\ observe_walk (attr_walk 64 32 1 rec_ok 32
                          (le16_to_cpu (le16_at rec_ok mftr.attrs_offset)) init_state)
          = Some (e, empty_id,
                  attr_header_reads (le16_to_cpu (le16_at rec_ok mftr.attrs_offset))).
Proof.
  destruct (first_offset_past_record 64 32 rec_ok 32 init_state 0) as (H1 & _ & H3).
  - vm_compute. discriminate.
  - split; [exact H1 |]. apply H3. reflexivity.
Defined.

Lemma walk_overread_bounded_witness :
  exists l, st_log (walk_state walk_ok) = [] ++ l
    /\ Forall (record_read_below (overread_bound 64 (mft_record_size boot_ok))) l.
Proof.
  apply (walk_overread_bounded 64 32 boot_ok rec_ok init_state 1024 (walk_exit walk_ok)
           (walk_state walk_ok)).
  - lia.
  - reflexivity.
Defined.

Lemma probe_return_value_witness :
  (exists st', volume_id_probe_ntfs 64 32 0 (source boot_fat 5120 1024 (Some rec_ok))
                 init_state 0 0 = Some (-1, st')
               /\ st_id st' = empty_id)
  /\ id_type (st_id (final_state run_ok)) = Some "ntfs"%string.
Proof.
  split.
  - apply (proj1 (probe_return_value 64 32 0 (source boot_fat 5120 1024 (Some rec_ok))
                    init_state 0 0)).
    right. exists boot_fat. split; [reflexivity |]. vm_compute. discriminate.
  - apply (proj2 (probe_return_value 64 32 1024 (source boot_ok 5120 1024 (Some rec_ok))
                    init_state 0 0) 0 (final_state run_ok)).
    + reflexivity.
    + reflexivity.
Defined.

Lemma probe_requests_witness :
  exists l, st_log (final_state run_ok) = [] ++ l
    /\ ((0 = -1 /\ requests l = [ Fetch 0 512 ])
        \/ (0 = 0 /\ exists ns, source boot_ok 5120 1024 (Some rec_ok) 0 512 = Some ns
              /\ requests l = [ Fetch 0 512;
                                Fetch (mft_request_off 0 ns) (mft_record_size ns) ])).
Proof.
  apply (probe_requests 64 32 1024 (source boot_ok 5120 1024 (Some rec_ok)) init_state 0 0 0
           (final_state run_ok)).
  reflexivity.
Defined.

Lemma boot_sector_reads_within_witness :
  exists l, st_log (final_state run_ok) = [] ++ l /\ Forall within_boot_sector l.
Proof.
  apply (boot_sector_reads_within 64 32 1024 (source boot_ok 5120 1024 (Some rec_ok))
           init_state 0 0 0 (final_state run_ok)).
  reflexivity.
Defined.

Lemma probe_label_fits_witness :
  label_fits 64 (st_id (final_state run_ok)).
Proof.
  apply (probe_label_fits 64 32 1024 (source boot_ok 5120 1024 (Some rec_ok))
           init_state 0 0 0 (final_state run_ok)).
  - lia.
  - exact I.
  - reflexivity.
Defined.

Lemma version_round_trip_witness :
  exists text,
    id_type_version (st_id (snd (attr_walk_body 64 32 rec_ok 1024 56 init_state))) = Some text
    /\ parse_version text = (3, 1).
Proof.
  apply (version_round_trip 64 32 rec_ok 1024 56 init_state 96
           (snd (attr_walk_body 64 32 rec_ok 1024 56 init_state))).
  - lia.
  - reflexivity.
  - reflexivity.
Defined.

(** * Well-formed records *)

Section WellFormed.

Variable VOLUME_ID_LABEL_SIZE : Z.
Variable VOLUME_ID_FORMAT_SIZE : Z.

Abbreviation body := (attr_walk_body VOLUME_ID_LABEL_SIZE VOLUME_ID_FORMAT_SIZE).
Abbreviation walk := (attr_walk VOLUME_ID_LABEL_SIZE VOLUME_ID_FORMAT_SIZE).

Lemma body_next (buf : buffer) (size a : Z) (st : state) :
  fst (body buf size a st) = attr_next buf size a.
Proof.
  rewrite body_unfold. cbv zeta. unfold attr_next.
  destruct (_ =? 0); [reflexivity |].
  destruct (_ >=? size); [reflexivity |].
  destruct (_ =? MFT_RECORD_ATTR_END); reflexivity.
Qed.

Lemma attr_well_formedb_sound (buf : buffer) (size a : Z) :
  attr_well_formedb VOLUME_ID_LABEL_SIZE buf size a = true ->
  attr_well_formed VOLUME_ID_LABEL_SIZE buf size a.
Proof.
  unfold attr_well_formedb, attr_well_formed. cbv zeta.
  rewrite !andb_true_iff, !orb_true_iff, !negb_true_iff, !andb_true_iff,
    !Z.leb_le, !Z.eqb_neq.
  intros [[[H0 H1] H2] H3]. repeat split; try assumption.
  - intros E. destruct H2 as [H2 | H2]; [contradiction | exact H2].
  - destruct H3 as [H3 | H3]; [contradiction | apply H3].
  - destruct H3 as [H3 | H3]; [contradiction | apply H3].
Qed.

(** The reads of an iteration on a well-formed attribute lie within the
    record. *)
Lemma body_reads_within (buf : buffer) (size a : Z) (st : state) r (st' : state) :
  attr_well_formed VOLUME_ID_LABEL_SIZE buf size a ->
  body buf size a st = (r, st') ->
  exists l, st_log st' = st_log st ++ l /\ Forall (within_record size) l.
Proof.
  unfold attr_well_formed. cbv zeta. intros (H0 & H1 & HI & HN).
  rewrite body_unfold. cbv zeta.
  unfold volume_info_step, volume_name_step.
  set (ty := le32_to_cpu (le32_at buf (a + attr.type))) in *.
  set (vo := le16_to_cpu (le16_at buf (a + attr.value_offset))) in *.
  set (vl := le32_to_cpu (le32_at buf (a + attr.value_len))) in *.
  set (n := if vl >? VOLUME_ID_LABEL_SIZE then VOLUME_ID_LABEL_SIZE else vl).
  pose proof (le16_field_range buf (a + attr.value_offset)) as Hvo. fold vo in Hvo.
  assert (Hn : n = Z.min vl VOLUME_ID_LABEL_SIZE).
  { unfold n. rewrite Z.gtb_ltb.
    destruct (VOLUME_ID_LABEL_SIZE <? vl) eqn:E;
      [apply Z.ltb_lt in E | apply Z.ltb_ge in E]; lia. }
  assert (Hh : Forall (within_record size) (attr_header_reads a)).
  { unfold attr_header_reads, attr.type, attr.len, attr.value_offset, attr.value_len.
    repeat constructor; simpl; lia. }
  clearbody n.
  destruct (_ =? 0).
  { intros H; inversion H; subst. cbn [st_log logging assign_attr]. eauto. }
  destruct (_ >=? size).
  { intros H; inversion H; subst. cbn [st_log logging assign_attr]. eauto. }
  destruct (ty =? MFT_RECORD_ATTR_END).
  { intros H; inversion H; subst. cbn [st_log logging assign_attr]. eauto. }
  destruct (ty =? MFT_RECORD_ATTR_VOLUME_INFO) eqn:EI;
    destruct (ty =? MFT_RECORD_ATTR_VOLUME_NAME) eqn:EN;
    try (apply Z.eqb_eq in EI; specialize (HI EI));
    try (apply Z.eqb_eq in EN; specialize (HN EN));
    intros H; inversion H; subst r st';
    cbn [st_log logging with_id assign_attr assign_info];
    rewrite <- ?app_assoc; eexists; (split; [reflexivity |]);
    repeat (apply Forall_app; split); try exact Hh;
    unfold info.major_ver, info.minor_ver; repeat constructor; simpl; lia.
Qed.

(** X13.  On a record whose visited attributes are all well formed (the
    header within the record, and the value bytes of a Volume-Info or
    Volume-Name attribute within it as well), every read of the attribute
    walk lies within the record: the out-of-bounds reads of the walk need
    a malformed attribute. *)
Theorem walk_reads_within_well_formed (buf : buffer) (size : Z) :
  forall (fuel : nat) (a : Z) (st : state) e (st' : state),
    Forall (attr_well_formed VOLUME_ID_LABEL_SIZE buf size) (visited fuel buf size a) ->
    walk fuel buf size a st = Some (e, st') ->
    exists l, st_log st' = st_log st ++ l /\ Forall (within_record size) l.
Proof.
  induction fuel as [| fuel IH]; intros a st e st' Hv Hw; [discriminate |].
  simpl in Hw, Hv. inversion Hv as [| x xs Ha Hrest]; subst.
  pose proof (body_next buf size a st) as Hn.
  destruct (body buf size a st) as [[e1 | a1] sm] eqn:Eb; cbn [fst] in Hn.
  - inversion Hw; subst. exact (body_reads_within _ _ _ _ _ _ Ha Eb).
  - rewrite <- Hn in Hrest.
    destruct (body_reads_within _ _ _ _ _ _ Ha Eb) as (l & Hl & Hf).
    destruct (IH a1 sm e st' Hrest Hw) as (l' & Hl' & Hf').
    exists (l ++ l'). split; [rewrite Hl', Hl; now rewrite app_assoc |].
    now apply Forall_app.
Qed.

End WellFormed.

Lemma walk_reads_within_well_formed_witness :
  exists l, st_log (walk_state walk_ok) = [] ++ l /\ Forall (within_record 1024) l.
Proof.
  apply (walk_reads_within_well_formed 64 32 rec_ok 1024 1024 56 init_state
           (walk_exit walk_ok) (walk_state walk_ok)).
  - change (visited 1024 rec_ok 1024 56) with [56; 96; 136].
    repeat (apply Forall_cons; [apply attr_well_formedb_sound; reflexivity |]).
    apply Forall_nil.
  - reflexivity.
Defined.

(** * A record with one label *)

Section OneLabel.

Variable VOLUME_ID_LABEL_SIZE : Z.
Variable VOLUME_ID_FORMAT_SIZE : Z.

Abbreviation probe := (volume_id_probe_ntfs VOLUME_ID_LABEL_SIZE VOLUME_ID_FORMAT_SIZE).

(** X14.  The stages compose: on a volume with the signature whose volume
    record is available and starts with the FILE tag, if the first
    attribute is a Volume-Name attribute whose 32-bit total length leads
    to an offset inside the record and the attribute there ends the walk
    (zero length, next offset past the record, or end marker), then the
    probe returns a match whose label is the value of the first attribute,
    clamped to the maximum label size, with the uuid of the boot sector,
    and the version left as it was. *)
Theorem probe_label_of_first_attribute (fuel : nat) (src : Z -> Z -> option buffer)
    (st : state) (off size : Z) (ns buf : buffer) :
  let rs := mft_record_size ns in
  let a := le16_to_cpu (le16_at buf mftr.attrs_offset) in
  let len := le16_to_cpu (le32_at buf (a + attr.len)) in
  let val_off := le16_to_cpu (le16_at buf (a + attr.value_offset)) in
  let val_len := le32_to_cpu (le32_at buf (a + attr.value_len)) in
  let next := u32 (a + len) in
  let len' := le16_to_cpu (le32_at buf (next + attr.len)) in
  let label := bytes_at buf (a + val_off) (Z.min val_len VOLUME_ID_LABEL_SIZE) in
  src off 512 = Some ns ->
  bytes_at ns ns.oem_id 4 = NTFS_sig ->
  src (mft_request_off off ns) rs = Some buf ->
  bytes_at buf mftr.magic 4 = FILE_sig ->
  le32_to_cpu (le32_at buf (a + attr.type)) = MFT_RECORD_ATTR_VOLUME_NAME ->
  len <> 0 -> next < rs ->
  (len' = 0 \/ rs <= u32 (next + len')
   \/ le32_to_cpu (le32_at buf (next + attr.type)) = MFT_RECORD_ATTR_END) ->
  (2 <= fuel)%nat ->
  exists st', probe fuel src st off size = Some (0, st')
    /\ id_type (st_id st') = Some "ntfs"%string
    /\ id_uuid (st_id st') = Some (le64_at ns ns.volume_serial)
    /\ id_label_raw (st_id st') = Some label
    /\ id_label (st_id st') = Some (code_units_le label)
    /\ id_type_version (st_id st') = id_type_version (st_id st).
Proof.
  intros rs a len val_off val_len next len' label Hns Hsig Hbuf Hmagic Hty Hlen Hnext Hexit Hfuel.
  apply (memcmp_eq_true ns ns.oem_id NTFS_sig) in Hsig.
  apply (memcmp_eq_true buf mftr.magic FILE_sig) in Hmagic.
  destruct fuel as [| [| fuel]]; [lia | lia |].
  unfold volume_id_probe_ntfs.
  cbn [assign_ns logging st_statics s_ns st_id st_log]. rewrite Hns, Hsig.
  cbn [negb]. cbv zeta. fold rs. rewrite Hbuf, Hmagic. cbn [negb]. fold a.
  cbn [attr_walk]. rewrite !body_unfold. cbv zeta.
  fold len. rewrite Hty. fold val_off val_len. fold next.
  apply Z.eqb_neq in Hlen. rewrite Hlen.
  assert (E1 : (next >=? rs) = false) by (rewrite Z.geb_leb; apply Z.leb_gt; lia).
  rewrite E1.
  change (MFT_RECORD_ATTR_VOLUME_NAME =? MFT_RECORD_ATTR_END) with false.
  change (MFT_RECORD_ATTR_VOLUME_NAME =? MFT_RECORD_ATTR_VOLUME_INFO) with false.
  change (MFT_RECORD_ATTR_VOLUME_NAME =? MFT_RECORD_ATTR_VOLUME_NAME) with true.
  cbv iota.
  assert (Hn : (if val_len >? VOLUME_ID_LABEL_SIZE then VOLUME_ID_LABEL_SIZE else val_len)
               = Z.min val_len VOLUME_ID_LABEL_SIZE).
  { rewrite Z.gtb_ltb.
    destruct (VOLUME_ID_LABEL_SIZE <? val_len) eqn:E;
      [apply Z.ltb_lt in E | apply Z.ltb_ge in E]; lia. }
  unfold volume_name_step. rewrite Hn. fold label.
  cbn [attr_walk]. rewrite body_unfold. cbv zeta. fold len'.
  assert (Hstop : (len' =? 0) = true
                  \/ ((len' =? 0) = false /\ (u32 (next + len') >=? rs) = true)
                  \/ ((len' =? 0) = false /\ (u32 (next + len') >=? rs) = false
                      /\ (le32_to_cpu (le32_at buf (next + attr.type)) =? MFT_RECORD_ATTR_END) = true)).
  { destruct (len' =? 0) eqn:E0; [auto |]. right.
    destruct (u32 (next + len') >=? rs) eqn:E2; [auto |]. right.
    apply Z.eqb_neq in E0. rewrite Z.geb_leb in E2. apply Z.leb_gt in E2.
    destruct Hexit as [H | [H | H]]; [lia | lia |].
    repeat split. now apply Z.eqb_eq. }
  destruct Hstop as [S0 | [[S0 S1] | (S0 & S1 & S2)]];
    rewrite ?S0, ?S1, ?S2; eexists; (split; [reflexivity |]); cbn; repeat split.
Qed.

End OneLabel.

Lemma probe_label_of_first_attribute_witness :
  exists st', volume_id_probe_ntfs 64 32 2 (source boot_ok 5120 1024 (Some rec_long))
                init_state 0 0 = Some (0, st')
    /\ id_type (st_id st') = Some "ntfs"%string
    /\ id_uuid (st_id st') = Some (le64_at boot_ok ns.volume_serial)
    /\ id_label_raw (st_id st') = Some (bytes_at rec_long 80 64)
    /\ id_label (st_id st') = Some (code_units_le (bytes_at rec_long 80 64))
    /\ id_type_version (st_id st') = None.
Proof.
  apply (probe_label_of_first_attribute 64 32 2 (source boot_ok 5120 1024 (Some rec_long))
           init_state 0 0 boot_ok rec_long).
  - reflexivity.
  - reflexivity.
  - reflexivity.
  - reflexivity.
  - reflexivity.
  - vm_compute. discriminate.
  - reflexivity.
  - right. right. reflexivity.
  - lia.
Defined.

(** * A zero geometry *)

Section ZeroGeometry.

Variable VOLUME_ID_LABEL_SIZE : Z.
Variable VOLUME_ID_FORMAT_SIZE : Z.

Abbreviation probe := (volume_id_probe_ntfs VOLUME_ID_LABEL_SIZE VOLUME_ID_FORMAT_SIZE).



End ZeroGeometry.


(** * A walk that never ends *)

(** On [rec_cycle] the walk goes from offset 56 to offset 80 and back,
    whatever the state, and so never reaches a [break]. *)
Lemma walk_round_the_cycle (label_size format_size : Z) :
  forall (fuel : nat) (st : state),
    attr_walk label_size format_size fuel rec_cycle 1024 56 st = None
    /\ attr_walk label_size format_size fuel rec_cycle 1024 80 st = None.
Proof.
  induction fuel as [| fuel IH]; intros st; [split; reflexivity |].
  split; simpl.
  - pose proof (body_next label_size format_size rec_cycle 1024 56 st) as Hn.
    change (attr_next rec_cycle 1024 56) with (@inr exit Z 80) in Hn.
    destruct (attr_walk_body label_size format_size rec_cycle 1024 56 st) as [r st'].
    cbn [fst] in Hn. subst r. apply IH.
  - pose proof (body_next label_size format_size rec_cycle 1024 80 st) as Hn.
    change (attr_next rec_cycle 1024 80) with (@inr exit Z 56) in Hn.
    destruct (attr_walk_body label_size format_size rec_cycle 1024 80 st) as [r st'].
    cbn [fst] in Hn. subst r. apply IH.
Qed.

(** C10, where the code departs from it.  The total length is a 32-bit
    field and [attr_off += attr_len] wraps: in the record [rec_cycle], of
    1024 bytes, the attribute at offset 56 has total length 24 and leads
    to offset 80, and the attribute at offset 80 has total length
    0xFFFFFFE8 and leads back to offset 56, below the record size.  No
    [break] fires, and the walk has not ended after any number of
    iterations. *)
Theorem walk_never_ends (label_size format_size : Z) (fuel : nat) (st : state) :
  le16_to_cpu (le16_at rec_cycle mftr.attrs_offset) = 56
  /\ attr_next rec_cycle 1024 56 = inr 80
  /\ le16_to_cpu (le32_at rec_cycle (80 + attr.len)) = 4294967272
  /\ u32 (80 + 4294967272) = 56
  /\ attr_next rec_cycle 1024 80 = inr 56
  /\ attr_walk label_size format_size fuel rec_cycle 1024 56 st = None.
Proof.
  split; [reflexivity |]. split; [reflexivity |]. split; [reflexivity |].
  split; [reflexivity |]. split; [reflexivity |].
  apply walk_round_the_cycle.
Qed.

(** C7, where the code departs from it.  The volume of [boot_ok] carries
    the signature, its volume record [rec_cycle] is available and tagged
    FILE, and the probe does not return on it: the attribute walk goes
    round its two attributes for ever, so no match and no uuid reach the
    caller. *)
Theorem probe_never_returns_on_cycle (label_size format_size : Z) (fuel : nat) (st : state) :
  bytes_at boot_ok ns.oem_id 4 = NTFS_sig
  /\ bytes_at rec_cycle mftr.magic 4 = FILE_sig
  /\ volume_id_probe_ntfs label_size format_size fuel
       (source boot_ok 5120 1024 (Some rec_cycle)) st 0 0 = None.
Proof.
  split; [reflexivity |]. split; [reflexivity |].
  unfold volume_id_probe_ntfs.
  cbn [assign_ns logging st_statics s_ns st_id st_log].
  change (source boot_ok 5120 1024 (Some rec_cycle) 0 512) with (Some boot_ok).
  cbv iota beta.
  change (memcmp_eq boot_ok ns.oem_id NTFS_sig) with true.
  cbn [negb]. cbv zeta.
  change (mft_record_size boot_ok) with 1024.
  change (mft_request_off 0 boot_ok) with 5120.
  change (source boot_ok 5120 1024 (Some rec_cycle) 5120 1024) with (Some rec_cycle).
  cbv iota beta.
  change (memcmp_eq rec_cycle mftr.magic FILE_sig) with true.
  cbn [negb].
  change (le16_to_cpu (le16_at rec_cycle mftr.attrs_offset)) with 56.
  match goal with
  | |- match attr_walk _ _ _ _ _ _ ?s0 with _ => _ end = None =>
      rewrite (proj1 (walk_round_the_cycle label_size format_size fuel s0))
  end.
  reflexivity.
Qed.

(** * The same fetched bytes, two labels *)

(** C9, where the code departs from it.  Two runs on the volume of
    [boot_ok] make the same two requests and are answered with the same
    boot sector and with records that hold the same 1024 bytes,
    [rec_past] and [rec_past_other].  The Volume-Name attribute places
    its value at offset 2056, past the record, so each run takes its label
    from what lies after the bytes it fetched: the two runs return
    different identity results. *)
Theorem same_fetched_bytes_different_labels :
  same_bytes rec_past rec_past_other 0 1024
  /\ requests (st_log (final_state
        (volume_id_probe_ntfs 64 32 1024 (source boot_ok 5120 1024 (Some rec_past))
           init_state 0 0)))
     = [ Fetch 0 512; Fetch 5120 1024 ]
  /\ requests (st_log (final_state
        (volume_id_probe_ntfs 64 32 1024 (source boot_ok 5120 1024 (Some rec_past_other))
           init_state 0 0)))
     = [ Fetch 0 512; Fetch 5120 1024 ]
  /\ observe (volume_id_probe_ntfs 64 32 1024 (source boot_ok 5120 1024 (Some rec_past))
                init_state 0 0)
     = Some (0,
             mk_volume_id (Some "ntfs"%string) (Some VOLUME_ID_FILESYSTEM)
               (Some [83; 69]) (Some [17747]) (Some 578437695752307201) None,
             matched_prefix 0 boot_ok
               ++ [ Read MftRecord 0 4; Read MftRecord 20 2 ]
               ++ attr_header_reads 56 ++ [ Read MftRecord 2056 2; Read MftRecord 2056 2 ]
               ++ attr_header_reads 80)
  /\ observe (volume_id_probe_ntfs 64 32 1024 (source boot_ok 5120 1024 (Some rec_past_other))
                init_state 0 0)
     = Some (0,
             mk_volume_id (Some "ntfs"%string) (Some VOLUME_ID_FILESYSTEM)
               (Some [90; 90]) (Some [23130]) (Some 578437695752307201) None,
             matched_prefix 0 boot_ok
               ++ [ Read MftRecord 0 4; Read MftRecord 20 2 ]
               ++ attr_header_reads 56 ++ [ Read MftRecord 2056 2; Read MftRecord 2056 2 ]
               ++ attr_header_reads 80).
Proof.
  split.
  - intros i Hi. unfold rec_past_other, byte_at, patch.
    destruct (2056 <=? i) eqn:E; [apply Z.leb_le in E; lia | reflexivity].
  - split; [vm_compute; reflexivity |].
    split; [vm_compute; reflexivity |].
    split; vm_compute; reflexivity.
Qed.

(** * Walks that end *)

Section NoWrap.

Variable VOLUME_ID_LABEL_SIZE : Z.
Variable VOLUME_ID_FORMAT_SIZE : Z.

Abbreviation walk := (attr_walk VOLUME_ID_LABEL_SIZE VOLUME_ID_FORMAT_SIZE).

(** Where the total length does not wrap the offset, the checks let the
    walk go on only to a larger offset below the record size. *)
Lemma attr_next_forward (buf : buffer) (size a a' : Z) :
  0 <= a -> no_wrap buf a ->
  attr_next buf size a = inr a' -> a < a' < size.
Proof.
  unfold no_wrap, attr_next. cbv zeta. intros Ha Hw.
  set (len := le16_to_cpu (le32_at buf (a + attr.len))) in *.
  pose proof (len_field_range buf (a + attr.len)) as Hl. fold len in Hl.
  destruct (len =? 0) eqn:E0; [discriminate |]. apply Z.eqb_neq in E0.
  rewrite (u32_small (a + len)) by lia.
  destruct (a + len >=? size) eqn:E1; [discriminate |].
  destruct (_ =? MFT_RECORD_ATTR_END); [discriminate |].
  intros H. inversion H; subst a'.
  rewrite Z.geb_leb in E1. apply Z.leb_gt in E1. lia.
Qed.

(** X16.  The attribute walk ends whenever no attribute it visits has a
    total length that wraps the 32-bit offset: each iteration then breaks
    or moves to a larger offset below the record size, and from offset [a]
    at most [max 1 (record_size - a)] iterations run. *)
Theorem walk_ends_without_wrap (buf : buffer) (size : Z) :
  forall (fuel : nat) (a : Z) (st : state),
    0 <= a ->
    Forall (no_wrap buf) (visited fuel buf size a) ->
    (Z.to_nat (Z.max 1 (size - a)) <= fuel)%nat ->
    exists e st', walk fuel buf size a st = Some (e, st').
Proof.
  induction fuel as [| fuel IH]; intros a st Ha Hv Hf; [lia |].
  simpl in Hv |- *. inversion Hv as [| x xs Hw Hrest]; subst.
  pose proof (body_next VOLUME_ID_LABEL_SIZE VOLUME_ID_FORMAT_SIZE buf size a st) as Hn.
  destruct (attr_walk_body VOLUME_ID_LABEL_SIZE VOLUME_ID_FORMAT_SIZE buf size a st)
    as [[e1 | a1] sm]; cbn [fst] in Hn.
  - eauto.
  - rewrite <- Hn in Hrest.
    pose proof (attr_next_forward buf size a a1 Ha Hw (eq_sym Hn)) as Hp.
    apply IH; [lia | exact Hrest | lia].
Qed.

End NoWrap.

Lemma walk_ends_without_wrap_witness :
  exists e st', attr_walk 64 32 968 rec_ok 1024 56 init_state = Some (e, st').
Proof.
  apply (walk_ends_without_wrap 64 32 rec_ok 1024 968 56 init_state).
  - lia.
  - change (visited 968 rec_ok 1024 56) with [56; 96; 136].
    repeat (apply Forall_cons; [reflexivity |]). apply Forall_nil.
  - apply Nat.leb_le. vm_compute. reflexivity.
Defined.
